(** * Camera pose optimizer: a shallow embedding of
    [nerfstudio/cameras/camera_optimizers.py]

    The development follows the Python module method by method.

    - Tensor entries are real numbers ([R]); a rank-1 float tensor is a
      [list R], a rank-2 one a list of rows, a batch of matrices a list of
      matrices.  Shapes are not part of the types: an operation that torch
      refuses on a shape raises here as well.
    - A Python exception is a value of [Exception]; a call that may raise
      returns a [result].  A method that assigns attributes returns the
      objects it touched next to its outcome, so that what an exception
      leaves behind is visible.
    - [exp_map_SO3xR3], [exp_map_SE3] (nerfstudio.cameras.lie_groups) and
      [multiply] (nerfstudio.utils.poses) are imported by the module but are
      not part of the sources at hand.  They are the fields of the class
      [PoseOps]; the theorems about [forward] hold for every instance.
    - Two pure pieces of [nerfstudio/process_data/flir_utils.py] are
      embedded as well: the byte swap [extract_thermal_image] maps over the
      raw pixels, and [extract_float] on ASCII text, the number it returns
      being the real number the matched text denotes. *)

From Stdlib Require Import Ascii String List ZArith Bool Lia Reals Lra.
Import ListNotations.

Open Scope string_scope.
Open Scope nat_scope.
Open Scope list_scope.

(** ** Exceptions and results *)

Inductive Exception : Type :=
| AttributeError
| IndexError
| AssertionError
| TypeError
| RuntimeError.

Inductive result (A : Type) : Type :=
| Ok (a : A)
| Raise (e : Exception).

Arguments Ok {A} a.
Arguments Raise {A} e.

Definition bind {A B : Type} (r : result A) (k : A -> result B) : result B :=
  match r with
  | Ok a => k a
  | Raise e => Raise e
  end.

Notation "x <- r ;; k" := (bind r (fun x => k))
  (at level 61, r at next level, right associativity).

Fixpoint mapM {A B : Type} (f : A -> result B) (l : list A) : result (list B) :=
  match l with
  | [] => Ok []
  | a :: l' => b <- f a ;; bs <- mapM f l' ;; Ok (b :: bs)
  end.

Fixpoint zip_with {A B C : Type} (f : A -> B -> C) (xs : list A) (ys : list B)
  : list C :=
  match xs, ys with
  | x :: xs', y :: ys' => f x y :: zip_with f xs' ys'
  | _, _ => []
  end.

(** ** Tensors *)

Definition Device := string.

(** A tensor that lives on a device: [data] and the tag [dev]. *)
Record Tensor (A : Type) : Type := mkTensor { data : A; dev : Device }.

Arguments mkTensor {A} data dev.
Arguments data {A} t.
Arguments dev {A} t.

(** [Tensor.to(device)]. *)
Definition to {A : Type} (t : Tensor A) (d : Device) : Tensor A :=
  mkTensor (data t) d.

Definition Matrix := list (list R).

(** What [Tensor.squeeze()] leaves of a batch whose rows keep their extent:
    a batch of exactly one element loses the batch axis as well ([single]),
    any other batch keeps it ([batch]).  An index tensor handed to [forward]
    is of this kind: rank 0 or rank 1. *)
Inductive squeezed (A : Type) : Type :=
| single (a : A)
| batch (l : list A).

Arguments single {A} a.
Arguments batch {A} l.

Definition squeeze {A : Type} (l : list A) : squeezed A :=
  match l with
  | [a] => single a
  | _ => batch l
  end.

(** [t.shape[0]]: the shape of a rank-0 tensor is the empty tuple. *)
Definition shape0 {A : Type} (t : squeezed A) : result nat :=
  match t with
  | single _ => Raise IndexError
  | batch l => Ok (length l)
  end.

(** Position selected by the integer [i] along an axis of extent [n]:
    negative integers count from the end, anything outside [-n, n) is out of
    range. *)
Definition wrap_index (n : nat) (i : Z) : option nat :=
  if ((0 <=? i) && (i <? Z.of_nat n))%Z then Some (Z.to_nat i)
  else if ((- Z.of_nat n <=? i) && (i <? 0))%Z then Some (Z.to_nat (i + Z.of_nat n))
  else None.

(** [t[i]] along the first axis. *)
Definition getitem {A : Type} (t : list A) (i : Z) : result A :=
  match wrap_index (length t) i with
  | Some k =>
      match nth_error t k with
      | Some a => Ok a
      | None => Raise IndexError
      end
  | None => Raise IndexError
  end.

(** [t[indices]] for a rank-1 integer tensor [indices]. *)
Definition gather {A : Type} (t : list A) (indices : list Z) : result (list A) :=
  mapM (getitem t) indices.

(** [t[indices]] for the index tensors [forward] may receive. *)
Definition getitem_squeezed {A : Type} (t : list A) (indices : squeezed Z)
  : result (squeezed A) :=
  match indices with
  | single i => a <- getitem t i ;; Ok (single a)
  | batch l => rows <- gather t l ;; Ok (batch rows)
  end.

(** [t[mask] = v] for a boolean [mask]: a rank-1 mask must have the extent
    of [t] and selects the rows to overwrite; a rank-0 mask selects all of
    [t] or nothing. *)
Definition setitem_mask {A : Type} (t : list A) (mask : squeezed bool) (v : A)
  : result (list A) :=
  match mask with
  | single b => Ok (if b then map (fun _ => v) t else t)
  | batch m =>
      if length t =? length m
      then Ok (zip_with (fun row (b : bool) => if b then v else row) t m)
      else Raise IndexError
  end.

(** [t.tile((n, 1, 1))]: [n] copies of the batch [t], one after the other. *)
Definition tile {A : Type} (n : nat) (t : list A) : list A :=
  concat (repeat t n).

(** [torch.eye(n)]. *)
Definition eye (n : nat) : Matrix :=
  map (fun i => map (fun j => if i =? j then 1%R else 0%R) (seq 0 n)) (seq 0 n).

(** [torch.eye(4)[:3, :4]], the 3x4 identity transform. *)
Definition eye34 : Matrix := map (firstn 4) (firstn 3 (eye 4)).

(** [m[:3, :3]], the rotation block, and [m[:3, 3]], the translation
    column, of a 3x4 transform. *)
Definition rotation (m : Matrix) : Matrix := map (firstn 3) (firstn 3 m).
Definition translation (m : Matrix) : list R :=
  map (fun row => nth 3 row 0%R) (firstn 3 m).

Definition sum (l : list R) : R := fold_right Rplus 0%R l.

Definition dot (u v : list R) : R := sum (zip_with Rmult u v).

Definition cols (m : Matrix) : nat :=
  match m with
  | [] => 0
  | row :: _ => length row
  end.

Definition column (j : nat) (m : Matrix) : list R :=
  map (fun row => nth j row 0%R) m.

(** Rows of [a] times columns of [b]. *)
Definition mat_product (a b : Matrix) : Matrix :=
  map (fun row => map (fun j => dot row (column j b)) (seq 0 (cols b))) a.

(** The matrix product [a @ b]; the inner extents must agree. *)
Definition matmul (a b : Matrix) : result Matrix :=
  if forallb (fun row => length row =? length b) a
  then Ok (mat_product a b)
  else Raise RuntimeError.

Fixpoint mapM2 {A B C : Type} (f : A -> B -> result C) (xs : list A) (ys : list B)
  : result (list C) :=
  match xs, ys with
  | x :: xs', y :: ys' => c <- f x y ;; cs <- mapM2 f xs' ys' ;; Ok (c :: cs)
  | _, _ => Ok []
  end.

(** [torch.bmm(a, b)]: the batches must have the same extent. *)
Definition bmm (a b : list Matrix) : result (list Matrix) :=
  if length a =? length b then mapM2 matmul a b else Raise RuntimeError.

(** [a + b] for two batches of vectors of one width, broadcasting along the
    batch axis when one of the extents is 1. *)
Definition add_rows (a b : list (list R)) : result (list (list R)) :=
  if length a =? length b then Ok (zip_with (zip_with Rplus) a b)
  else match a, b with
       | [x], _ => Ok (map (fun y => zip_with Rplus x y) b)
       | _, [y] => Ok (map (fun x => zip_with Rplus x y) a)
       | _, _ => Raise RuntimeError
       end.

(** [t.norm()] of a flat list of entries, and [t.mean()]. *)
Definition norm (v : list R) : R := sqrt (sum (map (fun x => x * x)%R v)).
Definition mean (l : list R) : R := (sum l / INR (length l))%R.

(** [range(n)] and [torch.arange(0, n)] as lists. *)
Definition range (n : Z) : list Z := map Z.of_nat (seq 0 (Z.to_nat n)).

(** A Python [dict] with string keys, in insertion order. *)
Definition dict (V : Type) := list (string * V).

Fixpoint dict_get {V : Type} (d : dict V) (k : string) : option V :=
  match d with
  | [] => None
  | (k', v) :: d' => if String.eqb k' k then Some v else dict_get d' k
  end.

(** [d[k] = v]. *)
Fixpoint dict_set {V : Type} (d : dict V) (k : string) (v : V) : dict V :=
  match d with
  | [] => [(k, v)]
  | (k', v') :: d' =>
      if String.eqb k' k then (k, v) :: d' else (k', v') :: dict_set d' k v
  end.

(** ** Collaborators outside the sources *)

(** A matrix of shape [3,4]. *)
Definition shape34 (m : Matrix) : Prop :=
  length m = 3 /\ Forall (fun row => length row = 4) m.

(** Modelled from the spec: [exp_map_SO3xR3] and [exp_map_SE3] of
    nerfstudio.cameras.lie_groups are missing from the sources.  The spec
    describes each as a pure function from a batch of 6-vectors, shape
    [N,6], to a batch of 3x4 transforms, shape [N,3,4]; so each is given by
    what it does to one row.  [multiply] of nerfstudio.utils.poses is missing
    as well and the spec does not describe it; it takes and returns a batch
    of transforms. *)
Class PoseOps : Type := {
  exp_SO3xR3_row : list R -> Matrix;
  exp_SE3_row : list R -> Matrix;
  multiply : list Matrix -> list Matrix -> list Matrix;
  exp_SO3xR3_shape : forall v, shape34 (exp_SO3xR3_row v);
  exp_SE3_shape : forall v, shape34 (exp_SE3_row v)
}.

Definition exp_map_SO3xR3 `{PoseOps} (tangent_vector : list (list R)) : list Matrix :=
  map exp_SO3xR3_row tangent_vector.

Definition exp_map_SE3 `{PoseOps} (tangent_vector : list (list R)) : list Matrix :=
  map exp_SE3_row tangent_vector.

(** [functools.reduce(f, l)] without an initial value. *)
Definition reduce {A : Type} (f : A -> A -> A) (l : list A) : result A :=
  match l with
  | [] => Raise TypeError
  | a :: l' => Ok (fold_left f l' a)
  end.

(** ** Configuration and the optimizer object *)

(** [Literal["off", "SO3xR3", "SE3", "shared_SO3xR3"]]: the branches ending
    in [assert_never] are excluded by the type. *)
Inductive Mode : Type := off | SO3xR3 | SE3 | shared_SO3xR3.

Definition Mode_eqb (a b : Mode) : bool :=
  match a, b with
  | off, off | SO3xR3, SO3xR3 | SE3, SE3 | shared_SO3xR3, shared_SO3xR3 => true
  | _, _ => false
  end.

(** [CameraOptimizerConfig]; the deprecated fields [optimizer] and
    [scheduler] only print a warning in [__post_init__] and are left out. *)
Record CameraOptimizerConfig : Type := mkConfig {
  mode : Mode;
  trans_l2_penalty : R;
  rot_l2_penalty : R;
  penalty_scale : R
}.

(** The attributes of a [CameraOptimizer].  [pose_adjustment] is [None] when
    the attribute was never assigned. *)
Record CameraOptimizer : Type := mkCameraOptimizer {
  config : CameraOptimizerConfig;
  num_cameras : Z;
  device : Device;
  non_trainable_camera_indices : option (Tensor (list Z));
  pose_adjustment : option (Tensor (list (list R)));
  suffix : string;
  non_trainable_camera_filter : option (Tensor (list bool))
}.

(** [torch.zeros((n, m))]; a negative extent is refused. *)
Definition zeros (n : Z) (m : nat) : result (list (list R)) :=
  if (n <? 0)%Z then Raise RuntimeError
  else Ok (repeat (repeat 0%R m) (Z.to_nat n)).

(** [i in t] for a rank-1 integer tensor [t]. *)
Definition contains (t : list Z) (i : Z) : bool := existsb (Z.eqb i) t.

(** [CameraOptimizer.__init__]; [kwargs_suffix] is [kwargs.get("suffix")]. *)
Definition __init__ (config : CameraOptimizerConfig) (num_cameras : Z)
    (device : Device) (non_trainable_camera_indices : option (Tensor (list Z)))
    (kwargs_suffix : option string) : result CameraOptimizer :=
  let config :=
    if Rlt_dec (penalty_scale config) 0
    then mkConfig off (trans_l2_penalty config) (rot_l2_penalty config)
                  (penalty_scale config)
    else config in
  pose_adjustment <-
    match mode config with
    | off => Ok None
    | SO3xR3 | SE3 =>
        z <- zeros num_cameras 6 ;; Ok (Some (mkTensor z device))
    | shared_SO3xR3 =>
        z <- zeros 1 6 ;; Ok (Some (mkTensor z device))
    end ;;
  Ok {| config := config;
        num_cameras := num_cameras;
        device := device;
        non_trainable_camera_indices := non_trainable_camera_indices;
        pose_adjustment := pose_adjustment;
        suffix := match kwargs_suffix with Some s => s | None => EmptyString end;
        non_trainable_camera_filter :=
          match non_trainable_camera_indices with
          | None => None
          | Some t =>
              Some (mkTensor (map (contains (data t)) (range num_cameras)) device)
          end |}.

(** [self.pose_adjustment]: reading an attribute that was never assigned. *)
Definition get_pose_adjustment (self : CameraOptimizer)
  : result (Tensor (list (list R))) :=
  match pose_adjustment self with
  | Some p => Ok p
  | None => Raise AttributeError
  end.

(** The rows a Lie map receives from [self.pose_adjustment[indices, :]].
    Modelled from the spec: the Lie maps take a batch of shape [N,6]; a
    rank-0 index selects a single row of shape [6], which is outside their
    domain, and the call raises. *)
Definition lie_input (pose : list (list R)) (indices : squeezed Z)
  : result (list (list R)) :=
  rows <- getitem_squeezed pose indices ;;
  match rows with
  | batch l => Ok l
  | single _ => Raise IndexError
  end.

(** [forward], first part: [outputs = []] and the dispatch on the mode. *)
Definition learned_delta `{PoseOps} (self : CameraOptimizer) (indices : squeezed Z)
  : result (list (list Matrix)) :=
  match mode (config self) with
  | off => Ok []
  | SO3xR3 =>
      p <- get_pose_adjustment self ;;
      rows <- lie_input (data p) indices ;;
      Ok [exp_map_SO3xR3 rows]
  | SE3 =>
      p <- get_pose_adjustment self ;;
      rows <- lie_input (data p) indices ;;
      Ok [exp_map_SE3 rows]
  | shared_SO3xR3 =>
      p <- get_pose_adjustment self ;;
      let m := exp_map_SO3xR3 (data p) in
      n <- shape0 indices ;;
      Ok [tile n m]
  end.

(** [forward], second part: the block guarded by
    [self.non_trainable_camera_indices is not None].  The two cached tensors
    are moved to the device of the parameters on demand; the rows selected
    by the mask are then overwritten in [outputs[0]]. *)
Definition detach_non_trainable (self : CameraOptimizer) (indices : squeezed Z)
    (outputs : list (list Matrix)) : result (list (list Matrix)) * CameraOptimizer :=
  match non_trainable_camera_indices self with
  | None => (Ok outputs, self)
  | Some nti =>
      match pose_adjustment self with
      | None => (Raise AttributeError, self)
      | Some p =>
          let self1 :=
            if String.eqb (dev nti) (dev p) then self
            else mkCameraOptimizer (config self) (num_cameras self) (device self)
                   (Some (to nti (dev p))) (pose_adjustment self) (suffix self)
                   (non_trainable_camera_filter self) in
          match non_trainable_camera_filter self1 with
          | None => (Raise AttributeError, self1)
          | Some f =>
              let f' := if String.eqb (dev f) (dev p) then f else to f (dev p) in
              let self2 :=
                if String.eqb (dev f) (dev p) then self1
                else mkCameraOptimizer (config self1) (num_cameras self1)
                       (device self1) (non_trainable_camera_indices self1)
                       (pose_adjustment self1) (suffix self1) (Some f') in
              (non_trainable_camera_filter <- getitem_squeezed (data f') indices ;;
               match outputs with
               | [] => Raise IndexError
               | o :: rest =>
                   o' <- setitem_mask o non_trainable_camera_filter eye34 ;;
                   Ok (o' :: rest)
               end,
               self2)
          end
      end
  end.

(** [CameraOptimizer.forward]: the outcome and the object after the call. *)
Definition forward `{PoseOps} (self : CameraOptimizer) (indices : squeezed Z)
  : result (list Matrix) * CameraOptimizer :=
  match learned_delta self indices with
  | Raise e => (Raise e, self)
  | Ok outputs =>
      let (r, self') := detach_non_trainable self indices outputs in
      (outputs <- r ;;
       match outputs with
       | [] => n <- shape0 indices ;; Ok (tile n [eye34])
       | _ => reduce multiply outputs
       end,
       self')
  end.

(** ** The consumers of [forward] *)

(** The fields of a [RayBundle] this module touches, for a bundle with one
    batch axis: [origins] has shape [N,3]; [camera_indices] has shape [N,1]
    and is kept as its [N] entries; [directions] has shape [N,3] until
    [apply_to_raybundle] assigns the squeezed product to it. *)
Record RayBundle : Type := mkRayBundle {
  origins : list (list R);
  directions : squeezed (list R);
  camera_indices : list Z
}.

(** [directions[..., None]] as the second argument of [torch.bmm], which
    wants a batch of matrices: each vector becomes a one-column matrix; a
    [directions] tensor of rank 1 becomes a single matrix and is refused. *)
Definition unsqueeze_last (d : squeezed (list R)) : result (list Matrix) :=
  match d with
  | batch l => Ok (map (map (fun x => [x])) l)
  | single _ => Raise RuntimeError
  end.

(** [CameraOptimizer.apply_to_raybundle]. *)
Definition apply_to_raybundle `{PoseOps} (self : CameraOptimizer)
    (raybundle : RayBundle) : result unit * CameraOptimizer * RayBundle :=
  if Mode_eqb (mode (config self)) off then (Ok tt, self, raybundle)
  else
    let (r, self') := forward self (squeeze (camera_indices raybundle)) in
    match r with
    | Raise e => (Raise e, self', raybundle)
    | Ok correction_matrices =>
        match add_rows (origins raybundle) (map translation correction_matrices) with
        | Raise e => (Raise e, self', raybundle)
        | Ok o =>
            let raybundle1 :=
              mkRayBundle o (directions raybundle) (camera_indices raybundle) in
            match
              d <- unsqueeze_last (directions raybundle1) ;;
              bmm (map rotation correction_matrices) d
            with
            | Raise e => (Raise e, self', raybundle1)
            | Ok prod =>
                (Ok tt, self',
                 mkRayBundle o (squeeze (map (@concat R) prod))
                   (camera_indices raybundle1))
            end
        end
    end.

(** The fields of a [Cameras] object this module touches; the metadata maps
    the key ["cam_idx"] to the integer identifier of the camera. *)
Record Cameras : Type := mkCameras {
  camera_to_worlds : list Matrix;
  metadata : option (dict Z);
  camera_device : Device
}.

(** [torch.cat([a, b], dim=1)] for two batches of matrices: the batch
    extents must agree. *)
Definition cat_dim1 (a b : list Matrix) : result (list Matrix) :=
  if length a =? length b then Ok (zip_with (@app (list R)) a b)
  else Raise RuntimeError.

(** [CameraOptimizer.apply_to_camera]. *)
Definition apply_to_camera `{PoseOps} (self : CameraOptimizer) (camera : Cameras)
  : result unit * CameraOptimizer * Cameras :=
  if Mode_eqb (mode (config self)) off then (Ok tt, self, camera)
  else
    match metadata camera with
    | None => (Raise AssertionError, self, camera)
    | Some md =>
        match dict_get md "cam_idx" with
        | None => (Raise AssertionError, self, camera)
        | Some camera_idx =>
            let (r, self') := forward self (batch [camera_idx]) in
            match
              adj <- r ;;
              adj <- cat_dim1 adj [[[0; 0; 0; 1]%R]] ;;
              bmm (camera_to_worlds camera) adj
            with
            | Raise e => (Raise e, self', camera)
            | Ok c2w =>
                (Ok tt, self',
                 mkCameras c2w (metadata camera) (camera_device camera))
            end
        end
    end.

(** The value [get_loss_dict] stores. *)
Definition regularizer (self : CameraOptimizer) (pose : list (list R)) : R :=
  ((mean (map norm (map (firstn 3) pose)) * trans_l2_penalty (config self)
    + mean (map norm (map (skipn 3) pose)) * rot_l2_penalty (config self))
   * penalty_scale (config self))%R.

(** [CameraOptimizer.get_loss_dict]. *)
Definition get_loss_dict (self : CameraOptimizer) (loss_dict : dict R)
  : result unit * dict R :=
  if Mode_eqb (mode (config self)) off then (Ok tt, loss_dict)
  else
    match get_pose_adjustment self with
    | Raise e => (Raise e, loss_dict)
    | Ok p =>
        (Ok tt,
         dict_set loss_dict ("camera_opt_regularizer" ++ suffix self)
           (regularizer self (data p)))
    end.

(** [CameraOptimizer.get_correction_matrices]; [torch.arange(0, n)] refuses
    a negative [n]. *)
Definition get_correction_matrices `{PoseOps} (self : CameraOptimizer)
  : result (list Matrix) * CameraOptimizer :=
  if (num_cameras self <? 0)%Z then (Raise RuntimeError, self)
  else forward self (batch (range (num_cameras self))).

(** [CameraOptimizer.get_metrics_dict]. *)
Definition get_metrics_dict (self : CameraOptimizer) (metrics_dict : dict R)
  : result unit * dict R :=
  if Mode_eqb (mode (config self)) off then (Ok tt, metrics_dict)
  else
    match get_pose_adjustment self with
    | Raise e => (Raise e, metrics_dict)
    | Ok p =>
        let d1 :=
          dict_set metrics_dict ("camera_opt_translation" ++ suffix self)
            (norm (concat (map (firstn 3) (data p)))) in
        (Ok tt,
         dict_set d1 ("camera_opt_rotation" ++ suffix self)
           (norm (concat (map (skipn 3) (data p)))))
    end.

(** [list(self.parameters())]: the one parameter the module may hold. *)
Definition parameters (self : CameraOptimizer) : list (Tensor (list (list R))) :=
  match pose_adjustment self with
  | Some p => [p]
  | None => []
  end.

(** [CameraOptimizer.get_param_groups]. *)
Definition get_param_groups (self : CameraOptimizer)
    (param_groups : dict (list (Tensor (list (list R))))) (name : string)
  : result unit * dict (list (Tensor (list (list R)))) :=
  let camera_opt_params := parameters self in
  if Mode_eqb (mode (config self)) off
  then
    if length camera_opt_params =? 0 then (Ok tt, param_groups)
    else (Raise AssertionError, param_groups)
  else
    if 0 <? length camera_opt_params
    then (Ok tt, dict_set param_groups name camera_opt_params)
    else (Raise AssertionError, param_groups).

(** ** The Lie maps as the spec describes them *)

(** Modelled from the spec: the Lie-map engine (nerfstudio.cameras.lie_groups
    is missing from the sources).  A row holds the translation generator in
    its first three entries and the rotation generator [w] in its last
    three.  The rotation is [exp(skew(w))] in Rodrigues' closed form,
    [I + a K + b K^2] with [K = skew(w)], [theta = |w|], [a = sin theta / theta]
    and [b = (1 - cos theta) / theta^2]; near the zero angle a threshold
    branch replaces the quotients by the first terms of their series.  The
    spec gives no threshold; [near_zero_threshold] is a choice of this
    model.

    Divisions are checked: a quotient by zero is no number, and an
    operation that meets it yields no matrix ([None]).  Tensor arithmetic
    would carry it on as inf or NaN entries. *)
Definition near_zero_threshold : R := (/ 100)%R.

(** [x / y]; no number when the divisor is zero. *)
Definition checked_div (x y : R) : option R :=
  if Req_EM_T y 0 then None else Some (x / y)%R.

Definition and_then {A B : Type} (o : option A) (k : A -> option B) : option B :=
  match o with
  | Some a => k a
  | None => None
  end.

Definition skew (w : list R) : Matrix :=
  let x := nth 0 w 0%R in
  let y := nth 1 w 0%R in
  let z := nth 2 w 0%R in
  [[0; - z; y]; [z; 0; - x]; [- y; x; 0]]%R.

Definition angle (w : list R) : R := norm (firstn 3 w).

Definition near_zero (w : list R) : bool :=
  if Rlt_dec (angle w) near_zero_threshold then true else false.

Definition sine_by_theta (w : list R) : option R :=
  if near_zero w then Some (1 - angle w * angle w / 6)%R
  else checked_div (sin (angle w)) (angle w).

Definition one_minus_cosine_by_theta2 (w : list R) : option R :=
  if near_zero w then Some (/ 2 - angle w * angle w / 24)%R
  else checked_div (1 - cos (angle w)) (angle w * angle w).

Definition theta_minus_sine_by_theta3 (w : list R) : option R :=
  if near_zero w then Some (/ 6 - angle w * angle w / 120)%R
  else checked_div (angle w - sin (angle w)) (angle w * angle w * angle w).

Definition mat_scale (c : R) (m : Matrix) : Matrix := map (map (Rmult c)) m.

Definition mat_add (a b : Matrix) : Matrix := zip_with (zip_with Rplus) a b.

(** [I + a K + b K^2]. *)
Definition rodrigues (a b : R) (K : Matrix) : Matrix :=
  mat_add (eye 3) (mat_add (mat_scale a K) (mat_scale b (mat_product K K))).

(** [exp(skew(w))]. *)
Definition exp_SO3 (w : list R) : option Matrix :=
  and_then (sine_by_theta w) (fun a =>
  and_then (one_minus_cosine_by_theta2 w) (fun b =>
  Some (rodrigues a b (skew w)))).

(** The differential of the rotation that couples the translation in SE3:
    [I + b K + c K^2] with [c = (theta - sin theta) / theta^3]. *)
Definition SE3_coupling (w : list R) : option Matrix :=
  and_then (one_minus_cosine_by_theta2 w) (fun b =>
  and_then (theta_minus_sine_by_theta3 w) (fun c =>
  Some (rodrigues b c (skew w)))).

(** The 3x4 transform with rotation block [r] and translation column [t]. *)
Definition transform (r : Matrix) (t : list R) : Matrix :=
  zip_with (fun row x => row ++ [x]) r t.

(** Modelled from the spec: the decoupled exponential of one row,
    rotation [exp(skew(v_rot))] and translation [v_trans] as it stands; no
    matrix when a division by zero was met on the way. *)
Definition exp_SO3xR3_checked (v : list R) : option Matrix :=
  and_then (exp_SO3 (skipn 3 v)) (fun r =>
  Some (transform r [nth 0 v 0%R; nth 1 v 0%R; nth 2 v 0%R])).

(** Modelled from the spec: the coupled exponential of one row, the
    translation passed through the differential of the rotation; no matrix
    when a division by zero was met on the way. *)
Definition exp_SE3_checked (v : list R) : option Matrix :=
  and_then (exp_SO3 (skipn 3 v)) (fun r =>
  and_then (SE3_coupling (skipn 3 v)) (fun V =>
  Some (transform r
          (map (fun row => dot row [nth 0 v 0%R; nth 1 v 0%R; nth 2 v 0%R]) V)))).

(** What stands for the 3x4 matrix without numbers that a division by zero
    would leave: the real numbers hold no NaN, so the all-zero matrix, which
    is no rigid transform and differs from the identity, takes its place. *)
Definition not_a_number34 : Matrix := repeat (repeat 0%R 4) 3.

(** The two Lie maps as functions to matrices, as [forward] consumes
    them. *)
Definition spec_exp_SO3xR3_row (v : list R) : Matrix :=
  match exp_SO3xR3_checked v with
  | Some m => m
  | None => not_a_number34
  end.

Definition spec_exp_SE3_row (v : list R) : Matrix :=
  match exp_SE3_checked v with
  | Some m => m
  | None => not_a_number34
  end.

(** Modelled from the spec: [pose_utils.multiply] is missing from the
    sources and the spec says only that transforms are multiplied together;
    the composition of rigid transforms stands for it.  [forward] never
    calls it, since [outputs] holds at most one batch. *)
Definition compose (a b : Matrix) : Matrix :=
  transform (mat_product (rotation a) (rotation b))
    (zip_with Rplus (translation a)
       (map (fun row => dot row (translation b)) (rotation a))).

Definition spec_multiply (a b : list Matrix) : list Matrix := zip_with compose a b.

#[export] Instance spec_pose_ops : PoseOps.
Proof.
  refine {| exp_SO3xR3_row := spec_exp_SO3xR3_row;
            exp_SE3_row := spec_exp_SE3_row;
            multiply := spec_multiply |};
    intro v;
    unfold spec_exp_SO3xR3_row, spec_exp_SE3_row, exp_SO3xR3_checked,
      exp_SE3_checked, exp_SO3, SE3_coupling, and_then;
    destruct (sine_by_theta (skipn 3 v));
    destruct (one_minus_cosine_by_theta2 (skipn 3 v));
    try destruct (theta_minus_sine_by_theta3 (skipn 3 v));
    (split; [reflexivity | repeat constructor]).
Defined.

(** ** Instances as the constructor leaves them *)

(** The shape facts [__init__] establishes and no method disturbs: no
    parameters in mode [off], one row per camera in the per-camera modes, a
    single row in the shared mode; and the mask holds, for each camera of
    [range(num_cameras)], whether it is among the non-trainable indices.
    The entries of [pose_adjustment] are free: the external optimizer
    rewrites them between calls. *)
Definition constructed (self : CameraOptimizer) : Prop :=
  match mode (config self) with
  | off => pose_adjustment self = None
  | SO3xR3 | SE3 =>
      exists p, pose_adjustment self = Some p
                /\ length (data p) = Z.to_nat (num_cameras self)
  | shared_SO3xR3 =>
      exists p, pose_adjustment self = Some p /\ length (data p) = 1
  end
  /\ match non_trainable_camera_indices self with
     | None => non_trainable_camera_filter self = None
     | Some t =>
         exists f, non_trainable_camera_filter self = Some f
                   /\ data f = map (contains (data t)) (range (num_cameras self))
     end.

(** The parameters as [torch.zeros] leaves them: every row six zeros. *)
Definition zero_parameters (self : CameraOptimizer) : Prop :=
  match pose_adjustment self with
  | Some p => Forall (fun row => row = repeat 0%R 6) (data p)
  | None => True
  end.

(** The camera indices the spec admits: values in [0, num_cameras). *)
Definition in_range (self : CameraOptimizer) (indices : list Z) : Prop :=
  Forall (fun i => (0 <= i < num_cameras self)%Z) indices.

(** The object the external optimizer leaves after a step: the entries of
    the parameters replaced, everything else as it was. *)
Definition with_pose (self : CameraOptimizer) (pose : list (list R))
  : CameraOptimizer :=
  mkCameraOptimizer (config self) (num_cameras self) (device self)
    (non_trainable_camera_indices self)
    (match pose_adjustment self with
     | Some p => Some (mkTensor pose (dev p))
     | None => None
     end)
    (suffix self) (non_trainable_camera_filter self).

(** What [forward] puts at a batch position that holds the camera index
    [i], in the per-camera modes: the Lie map of the row [i] selects, or the
    identity when the mask is configured and set at [i]. *)
Definition correction_at `{PoseOps} (self : CameraOptimizer) (i : Z) : result Matrix :=
  p <- get_pose_adjustment self ;;
  row <- getitem (data p) i ;;
  let m :=
    match mode (config self) with
    | SE3 => exp_SE3_row row
    | _ => exp_SO3xR3_row row
    end in
  match non_trainable_camera_indices self with
  | None => Ok m
  | Some _ =>
      match non_trainable_camera_filter self with
      | None => Raise AttributeError
      | Some f => b <- getitem (data f) i ;; Ok (if b : bool then eye34 else m)
      end
  end.

(** The rows of [delta] with the identity written where [mask] is set:
    what the masked assignment in [forward] leaves. *)
Definition overwrite (delta : list Matrix) (mask : list bool) : list Matrix :=
  zip_with (fun row (b : bool) => if b then eye34 else row) delta mask.

(** [m @ v] for a matrix and a vector. *)
Definition matvec (m : Matrix) (v : list R) : list R :=
  map (fun row => dot row v) m.

(** ** Concrete objects *)

(** Three cameras in mode [SO3xR3], camera 1 non-trainable, the parameters
    after some optimizer steps: rows 0 and 1 moved, row 2 still zero. *)
Definition three_cameras : CameraOptimizer :=
  mkCameraOptimizer (mkConfig SO3xR3 (/ 100) (/ 1000) 1) 3 "cpu"
    (Some (mkTensor [1%Z] "cpu"))
    (Some (mkTensor [[1; 2; 3; 0; 0; 0]; [4; 5; 6; 0; 0; 0];
                     [0; 0; 0; 0; 0; 0]]%R "cpu"))
    "" (Some (mkTensor [false; true; false] "cpu")).

(** Two cameras in the shared mode, camera 1 non-trainable, the shared row
    moved by one unit of translation. *)
Definition two_cameras_shared : CameraOptimizer :=
  mkCameraOptimizer (mkConfig shared_SO3xR3 (/ 100) (/ 1000) 1) 2 "cpu"
    (Some (mkTensor [1%Z] "cpu"))
    (Some (mkTensor [[1; 0; 0; 0; 0; 0]]%R "cpu"))
    "" (Some (mkTensor [false; true] "cpu")).

(** Two cameras in the shared mode, no non-trainable set. *)
Definition two_cameras_shared_plain : CameraOptimizer :=
  mkCameraOptimizer (mkConfig shared_SO3xR3 (/ 100) (/ 1000) 1) 2 "cpu" None
    (Some (mkTensor [[1; 0; 0; 0; 0; 0]]%R "cpu")) "" None.

(** Mode [off] with camera 0 non-trainable, as the constructor leaves it. *)
Definition off_with_non_trainable : CameraOptimizer :=
  mkCameraOptimizer (mkConfig off (/ 100) (/ 1000) 1) 3 "cpu"
    (Some (mkTensor [0%Z] "cpu")) None "" (Some (mkTensor [true; false; false] "cpu")).


(** A bundle of a single ray seen by camera 0. *)
Definition one_ray : RayBundle :=
  mkRayBundle [[0; 0; 0]%R] (batch [[0; 0; 1]%R]) [0%Z].

(** A camera without metadata, and one whose metadata holds no camera
    identifier. *)
Definition camera_without_metadata : Cameras := mkCameras [eye34] None "cpu".

Definition camera_without_identifier : Cameras :=
  mkCameras [eye34] (Some [("frame", 7%Z)]) "cpu".

(** ** The correction of one camera *)

(** Whether the camera index [i] is among the non-trainable indices the
    instance was given. *)
Definition masked (self : CameraOptimizer) (i : Z) : bool :=
  match non_trainable_camera_indices self with
  | Some t => contains (data t) i
  | None => false
  end.

(** The Lie map of the parameter row that serves camera [i]: row [i] in the
    per-camera modes, the single row in the shared mode. *)
Definition lie_row `{PoseOps} (self : CameraOptimizer) (i : Z) : Matrix :=
  match mode (config self), pose_adjustment self with
  | SO3xR3, Some p => exp_SO3xR3_row (nth (Z.to_nat i) (data p) [])
  | SE3, Some p => exp_SE3_row (nth (Z.to_nat i) (data p) [])
  | shared_SO3xR3, Some p => exp_SO3xR3_row (hd [] (data p))
  | _, _ => eye34
  end.

(** The correction [forward] hands out for camera [i], for [i] in
    [0, num_cameras). *)
Definition correction_row `{PoseOps} (self : CameraOptimizer) (i : Z) : Matrix :=
  if masked self i then eye34 else lie_row self i.

(** A camera with the identity pose whose metadata names it camera [i]. *)
Definition camera_numbered (i : Z) : Cameras :=
  mkCameras [eye34] (Some [("cam_idx", i)]) "cpu".

(** A bundle of two rays, the first seen by camera 0, the second by
    camera 1. *)
Definition two_rays : RayBundle :=
  mkRayBundle [[0; 0; 0]; [1; 1; 1]]%R (batch [[0; 0; 1]; [0; 1; 0]]%R)
    [0%Z; 1%Z].

(** ** [nerfstudio/process_data/flir_utils.py] *)

(** The function [extract_thermal_image] maps over the pixels of the raw
    thermal image when [fix_endian] is set,
    [lambda x: (x >> 8) + ((x & 0x00ff) << 8)], on Python integers. *)
Definition swap_bytes (x : Z) : Z :=
  (Z.shiftr x 8 + Z.shiftl (Z.land x 255) 8)%Z.

(** [np.vectorize(f)(a)] for a 2-D array [a]. *)
Definition vectorize {A B : Type} (f : A -> B) (a : list (list A))
  : list (list B) :=
  map (map f) a.

(** [\d] on ASCII text. *)
Definition is_digit (c : Ascii.ascii) : bool :=
  (48 <=? Ascii.nat_of_ascii c) && (Ascii.nat_of_ascii c <=? 57).

Definition is_sign (c : Ascii.ascii) : bool :=
  Ascii.eqb c "-"%char || Ascii.eqb c "+"%char.

(** The longest prefix of digits, and what follows it: a greedy [\d*]. *)
Fixpoint span_digits (s : string) : string * string :=
  match s with
  | String c s' =>
      if is_digit c
      then let (ds, rest) := span_digits s' in (String c ds, rest)
      else (EmptyString, s)
  | EmptyString => (EmptyString, EmptyString)
  end.

(** The first alternative of the pattern after its optional sign,
    [\d*\.\d+] at the start of [s], and the text matched with the sign. *)
Definition match_after_sign (sign s : string) : option string :=
  let (ds, s2) := span_digits s in
  match s2 with
  | String c s3 =>
      if Ascii.eqb c "."%char
      then
        let (fs, _) := span_digits s3 in
        match fs with
        | EmptyString => None
        | _ => Some (sign ++ ds ++ String "."%char fs)%string
        end
      else None
  | EmptyString => None
  end.

(** The first alternative of the pattern at the start of [s],
    [[-+]?\d*\.\d+]: the text it matches, if it matches.  A sign, when
    present, is taken; giving it back would leave the sign where a digit or
    the point is wanted. *)
Definition match_decimal (s : string) : option string :=
  match s with
  | String c s' =>
      if is_sign c then match_after_sign (String c EmptyString) s'
      else match_after_sign EmptyString s
  | EmptyString => match_after_sign EmptyString s
  end.

(** The second alternative at the start of [s], [\d+]. *)
Definition match_integer (s : string) : option string :=
  let (ds, _) := span_digits s in
  match ds with
  | EmptyString => None
  | _ => Some ds
  end.

(** [re.findall(r"[-+]?\d*\.\d+|\d+", s)[0]] for ASCII text: the leftmost
    match, the first alternative tried before the second at every
    position. *)
Fixpoint first_match (s : string) : option string :=
  match match_decimal s with
  | Some m => Some m
  | None =>
      match match_integer s with
      | Some m => Some m
      | None =>
          match s with
          | String _ s' => first_match s'
          | EmptyString => None
          end
      end
  end.

(** The number a string of digits denotes. *)
Fixpoint digits_value (acc : Z) (s : string) : Z :=
  match s with
  | String c s' => digits_value (10 * acc + (Z.of_nat (Ascii.nat_of_ascii c) - 48)) s'
  | EmptyString => acc
  end.

(** [float(m)] for a text [m] the pattern matched, as the real number the
    text denotes. *)
Definition float_of (m : string) : R :=
  let (negative, body) :=
    match m with
    | String c m' =>
        if is_sign c then (Ascii.eqb c "-"%char, m') else (false, m)
    | EmptyString => (false, m)
    end in
  let (ds, rest) := span_digits body in
  let magnitude :=
    match rest with
    | String c fs =>
        if Ascii.eqb c "."%char
        then (IZR (digits_value 0 ds)
              + IZR (digits_value 0 fs) / 10 ^ String.length fs)%R
        else IZR (digits_value 0 ds)
    | EmptyString => IZR (digits_value 0 ds)
    end in
  if negative then (- magnitude)%R else magnitude.

(** [FlirImageExtractor.extract_float]. *)
Definition extract_float (dirtystr : string) : result R :=
  match first_match dirtystr with
  | Some m => Ok (float_of m)
  | None => Raise IndexError
  end.

(** Whether a character of [s] is a digit. *)
Fixpoint has_digit (s : string) : bool :=
  match s with
  | String c s' => is_digit c || has_digit s'
  | EmptyString => false
  end.

(** Whether [s] consists of digits. *)
Fixpoint all_digits (s : string) : bool :=
  match s with
  | String c s' => is_digit c && all_digits s'
  | EmptyString => true
  end.

(** Whether [s] starts with a character other than a digit or the point,
    or is empty. *)
Definition ends_number (s : string) : bool :=
  match s with
  | String c _ => negb (is_digit c) && negb (Ascii.eqb c "."%char)
  | EmptyString => true
  end.

(** * Properties *)

(** ** Lists, results and indexing *)

Lemma eye34_entries :
  eye34 = [[1; 0; 0; 0]; [0; 1; 0; 0]; [0; 0; 1; 0]]%R.
Proof. reflexivity. Qed.

Lemma eye34_rotation : rotation eye34 = eye 3.
Proof. reflexivity. Qed.

Lemma eye34_translation : translation eye34 = [0; 0; 0]%R.
Proof. reflexivity. Qed.

Lemma eye34_shape : shape34 eye34.
Proof. split; [reflexivity | repeat constructor]. Qed.

Lemma mapM_pure {A B : Type} (f : A -> result B) (g : A -> B) (l : list A) :
  Forall (fun a => f a = Ok (g a)) l -> mapM f l = Ok (map g l).
Proof.
  induction 1 as [|a l Ha _ IH]; simpl; [reflexivity|].
  rewrite Ha; simpl. rewrite IH; reflexivity.
Qed.

Lemma zip_with_length {A B C : Type} (f : A -> B -> C) (xs : list A) (ys : list B) :
  length xs = length ys -> length (zip_with f xs ys) = length xs.
Proof.
  revert ys; induction xs as [|x xs IH]; intros [|y ys] E; simpl in *;
    try discriminate; [reflexivity|].
  f_equal; apply IH; congruence.
Qed.

Lemma zip_with_nth_error {A B C : Type} (f : A -> B -> C) (xs : list A)
    (ys : list B) (k : nat) (x : A) (y : B) :
  nth_error xs k = Some x -> nth_error ys k = Some y ->
  nth_error (zip_with f xs ys) k = Some (f x y).
Proof.
  revert ys k; induction xs as [|x' xs IH]; intros [|y' ys] [|k] Hx Hy;
    simpl in *; try discriminate.
  - congruence.
  - apply IH; assumption.
Qed.

Lemma tile_singleton {A : Type} (n : nat) (x : A) : tile n [x] = repeat x n.
Proof.
  unfold tile; induction n as [|n IH]; simpl; [reflexivity|].
  f_equal; exact IH.
Qed.

Lemma nth_error_repeat_lt {A : Type} (x : A) (n k : nat) :
  k < n -> nth_error (repeat x n) k = Some x.
Proof.
  revert k; induction n as [|n IH]; intros [|k] Hk; simpl; try lia.
  - reflexivity.
  - apply IH; lia.
Qed.

Lemma wrap_index_in_range (n : nat) (i : Z) :
  (0 <= i < Z.of_nat n)%Z -> wrap_index n i = Some (Z.to_nat i).
Proof.
  intros Hi; unfold wrap_index.
  replace (0 <=? i)%Z with true by (symmetry; apply Z.leb_le; lia).
  replace (i <? Z.of_nat n)%Z with true by (symmetry; apply Z.ltb_lt; lia).
  reflexivity.
Qed.

Lemma getitem_in_range {A : Type} (t : list A) (i : Z) (d : A) :
  (0 <= i < Z.of_nat (length t))%Z -> getitem t i = Ok (nth (Z.to_nat i) t d).
Proof.
  intros Hi; unfold getitem. rewrite wrap_index_in_range by assumption.
  destruct (nth_error t (Z.to_nat i)) as [a|] eqn:E.
  - rewrite (nth_error_nth _ _ d E); reflexivity.
  - apply nth_error_None in E; lia.
Qed.

Lemma gather_in_range {A : Type} (t : list A) (indices : list Z) (d : A) :
  Forall (fun i => (0 <= i < Z.of_nat (length t))%Z) indices ->
  gather t indices = Ok (map (fun i => nth (Z.to_nat i) t d) indices).
Proof.
  intros Hin; apply mapM_pure.
  eapply Forall_impl; [|exact Hin].
  intros i Hi; simpl. apply getitem_in_range; assumption.
Qed.

Lemma range_length (n : Z) : length (range n) = Z.to_nat n.
Proof. unfold range; rewrite length_map, length_seq; reflexivity. Qed.

Lemma range_nth (n i : Z) (d : Z) :
  (0 <= i < n)%Z -> nth (Z.to_nat i) (range n) d = i.
Proof.
  intros Hi; unfold range.
  rewrite (nth_indep _ d (Z.of_nat 0)) by (rewrite length_map, length_seq; lia).
  rewrite map_nth, seq_nth by lia. simpl; lia.
Qed.

(** The mask of a constructed instance, read at in-range indices, says which
    of them are non-trainable. *)
Lemma gather_filter (t : list Z) (n : Z) (indices : list Z) :
  Forall (fun i => (0 <= i < n)%Z) indices ->
  gather (map (contains t) (range n)) indices = Ok (map (contains t) indices).
Proof.
  intros Hin.
  rewrite (gather_in_range _ _ false).
  - f_equal. apply map_ext_in; intros i Hi.
    rewrite Forall_forall in Hin; specialize (Hin i Hi).
    rewrite (nth_indep _ false (contains t 0%Z))
      by (rewrite length_map, range_length; lia).
    rewrite map_nth, range_nth by assumption. reflexivity.
  - eapply Forall_impl; [|exact Hin].
    intros i Hi; simpl in *. rewrite length_map, range_length; lia.
Qed.

(** ** [forward] *)

Section Forward.

Context {ops : PoseOps}.

Lemma detach_none (self : CameraOptimizer) (indices : squeezed Z)
    (outputs : list (list Matrix)) :
  non_trainable_camera_indices self = None ->
  detach_non_trainable self indices outputs = (Ok outputs, self).
Proof. intros E; unfold detach_non_trainable; rewrite E; reflexivity. Qed.

Lemma detach_no_parameters (self : CameraOptimizer) (indices : squeezed Z)
    (outputs : list (list Matrix)) (t : Tensor (list Z)) :
  non_trainable_camera_indices self = Some t ->
  pose_adjustment self = None ->
  detach_non_trainable self indices outputs = (Raise AttributeError, self).
Proof.
  intros E1 E2; unfold detach_non_trainable; rewrite E1, E2; reflexivity.
Qed.

Lemma detach_outcome (self : CameraOptimizer) (indices : squeezed Z)
    (outputs : list (list Matrix)) t p f :
  non_trainable_camera_indices self = Some t ->
  pose_adjustment self = Some p ->
  non_trainable_camera_filter self = Some f ->
  fst (detach_non_trainable self indices outputs) =
    (mask <- getitem_squeezed (data f) indices ;;
     match outputs with
     | [] => Raise IndexError
     | o :: rest => o' <- setitem_mask o mask eye34 ;; Ok (o' :: rest)
     end).
Proof.
  intros E1 E2 E3; unfold detach_non_trainable; rewrite E1, E2.
  destruct (String.eqb (dev t) (dev p)); simpl; rewrite E3;
    destruct (String.eqb (dev f) (dev p)); reflexivity.
Qed.

(** The second part of [forward] moves the two cached tensors and touches
    nothing else. *)
Lemma detach_keeps (self : CameraOptimizer) (indices : squeezed Z)
    (outputs : list (list Matrix)) :
  let self' := snd (detach_non_trainable self indices outputs) in
  config self' = config self
  /\ num_cameras self' = num_cameras self
  /\ device self' = device self
  /\ pose_adjustment self' = pose_adjustment self
  /\ suffix self' = suffix self
  /\ option_map data (non_trainable_camera_indices self')
     = option_map data (non_trainable_camera_indices self)
  /\ option_map data (non_trainable_camera_filter self')
     = option_map data (non_trainable_camera_filter self).
Proof.
  unfold detach_non_trainable.
  destruct (non_trainable_camera_indices self) as [t|] eqn:E1;
    [|simpl; rewrite E1; repeat split].
  destruct (pose_adjustment self) as [p|] eqn:E2;
    [|simpl; rewrite E1, E2; repeat split].
  destruct (String.eqb (dev t) (dev p)); simpl;
    destruct (non_trainable_camera_filter self) as [f|] eqn:E3; simpl;
    rewrite ?E1, ?E2, ?E3; try (repeat split; fail);
    destruct (String.eqb (dev f) (dev p)); simpl;
    rewrite ?E1, ?E2, ?E3; repeat split.
Qed.

Lemma forward_keeps (self : CameraOptimizer) (indices : squeezed Z) :
  let self' := snd (forward self indices) in
  config self' = config self
  /\ num_cameras self' = num_cameras self
  /\ device self' = device self
  /\ pose_adjustment self' = pose_adjustment self
  /\ suffix self' = suffix self
  /\ option_map data (non_trainable_camera_indices self')
     = option_map data (non_trainable_camera_indices self)
  /\ option_map data (non_trainable_camera_filter self')
     = option_map data (non_trainable_camera_filter self).
Proof.
  unfold forward.
  destruct (learned_delta self indices) as [outputs|e]; [|simpl; repeat split].
  pose proof (detach_keeps self indices outputs) as K.
  destruct (detach_non_trainable self indices outputs) as [r self']; exact K.
Qed.

Lemma constructed_keeps (self self' : CameraOptimizer) :
  config self' = config self ->
  num_cameras self' = num_cameras self ->
  option_map (fun p => length (data p)) (pose_adjustment self')
    = option_map (fun p => length (data p)) (pose_adjustment self) ->
  option_map data (non_trainable_camera_indices self')
    = option_map data (non_trainable_camera_indices self) ->
  option_map data (non_trainable_camera_filter self')
    = option_map data (non_trainable_camera_filter self) ->
  constructed self -> constructed self'.
Proof.
  intros Ec En Ep Ei Ef [Hp Hf]; unfold constructed; rewrite Ec, En; split.
  - destruct (mode (config self));
      [ destruct (pose_adjustment self'); [|reflexivity];
        rewrite Hp in Ep; discriminate
      | | | ];
      destruct Hp as [p [Hp Hl]]; rewrite Hp in Ep;
      destruct (pose_adjustment self') as [p'|]; try discriminate;
      exists p'; split; try reflexivity; simpl in Ep; congruence.
  - destruct (non_trainable_camera_indices self) as [t|];
      destruct (non_trainable_camera_indices self') as [t'|]; try discriminate.
    + destruct Hf as [f [Hf Hd]]; rewrite Hf in Ef.
      destruct (non_trainable_camera_filter self') as [f'|]; try discriminate.
      exists f'; split; [reflexivity|]. simpl in Ei, Ef. congruence.
    + rewrite Hf in Ef.
      destruct (non_trainable_camera_filter self'); [discriminate | reflexivity].
Qed.

(** [forward] leaves a constructed instance constructed. *)
Lemma forward_constructed (self : CameraOptimizer) (indices : squeezed Z) :
  constructed self -> constructed (snd (forward self indices)).
Proof.
  destruct (forward_keeps self indices) as (Ec & En & _ & Ep & _ & Ei & Ef).
  apply constructed_keeps; try assumption. rewrite Ep; reflexivity.
Qed.

(** A step of the external optimizer that keeps the number of rows leaves
    a constructed instance constructed. *)
Lemma with_pose_constructed (self : CameraOptimizer) (pose : list (list R)) :
  (forall p, pose_adjustment self = Some p -> length pose = length (data p)) ->
  constructed self -> constructed (with_pose self pose).
Proof.
  intros L. apply constructed_keeps; try reflexivity.
  unfold with_pose; simpl.
  destruct (pose_adjustment self) as [p|]; [|reflexivity].
  simpl; f_equal; apply L; reflexivity.
Qed.

(** The constructor establishes [constructed]. *)
Lemma init_constructed cfg n d nti sfx (self : CameraOptimizer) :
  __init__ cfg n d nti sfx = Ok self -> constructed self.
Proof.
  unfold __init__.
  set (cfg' := if Rlt_dec (penalty_scale cfg) 0 then _ else cfg).
  assert (Hz : forall k m z, zeros k m = Ok z -> length z = Z.to_nat k).
  { intros k m z; unfold zeros; destruct (k <? 0)%Z; [discriminate|].
    intros E; inversion E; apply repeat_length. }
  assert (Hf : match nti with
               | None => @None (Tensor (list bool)) = None
               | Some t =>
                   exists f, Some (mkTensor (map (contains (data t)) (range n)) d)
                             = Some f
                             /\ data f = map (contains (data t)) (range n)
               end).
  { destruct nti; [eexists; split; reflexivity | reflexivity]. }
  destruct (mode cfg') eqn:M; simpl.
  - intros E; inversion E; subst; clear E.
    unfold constructed; simpl; rewrite M. split; [reflexivity|].
    destruct nti; exact Hf.
  - destruct (zeros n 6) as [z|e] eqn:Z6; simpl; [|discriminate].
    intros E; inversion E; subst; clear E.
    unfold constructed; simpl; rewrite M. split.
    + eexists; split; [reflexivity|]. simpl; eapply Hz; eassumption.
    + destruct nti; exact Hf.
  - destruct (zeros n 6) as [z|e] eqn:Z6; simpl; [|discriminate].
    intros E; inversion E; subst; clear E.
    unfold constructed; simpl; rewrite M. split.
    + eexists; split; [reflexivity|]. simpl; eapply Hz; eassumption.
    + destruct nti; exact Hf.
  - intros E; inversion E; subst; clear E.
    unfold constructed; simpl; rewrite M. split.
    + eexists; split; reflexivity.
    + destruct nti; exact Hf.
Qed.

End Forward.

Section ForwardResults.

Context {ops : PoseOps}.

(** Mode [off] without a non-trainable set: the fast path at the end of
    [forward] answers with one identity per index. *)
Lemma forward_off_plain (self : CameraOptimizer) (indices : list Z) :
  mode (config self) = off ->
  non_trainable_camera_indices self = None ->
  forward self (batch indices) = (Ok (repeat eye34 (length indices)), self).
Proof.
  intros M E; unfold forward, learned_delta; rewrite M.
  rewrite detach_none by assumption. simpl. rewrite tile_singleton; reflexivity.
Qed.

Lemma in_range_rows (self : CameraOptimizer) (indices : list Z) (k : nat) :
  k = Z.to_nat (num_cameras self) ->
  in_range self indices ->
  Forall (fun i => (0 <= i < Z.of_nat k)%Z) indices.
Proof.
  intros -> H; eapply Forall_impl; [|exact H]. intros i Hi; simpl in *; lia.
Qed.

(** The Lie-map step of a constructed instance on in-range indices. *)
Lemma learned_delta_constructed (self : CameraOptimizer) (indices : list Z) :
  constructed self -> in_range self indices -> mode (config self) <> off ->
  exists delta,
    learned_delta self (batch indices) = Ok [delta]
    /\ length delta = length indices
    /\ Forall shape34 delta.
Proof.
  intros [Hp _] Hin M; unfold learned_delta, get_pose_adjustment, lie_input.
  destruct (mode (config self)); [congruence | | | ];
    destruct Hp as [p [Hp Hl]]; rewrite Hp; simpl.
  - rewrite (gather_in_range _ _ []) by (eapply in_range_rows; eauto).
    simpl. eexists; split; [reflexivity|]. split.
    + unfold exp_map_SO3xR3; rewrite !length_map; reflexivity.
    + unfold exp_map_SO3xR3; apply Forall_map, Forall_map, Forall_forall.
      intros; apply exp_SO3xR3_shape.
  - rewrite (gather_in_range _ _ []) by (eapply in_range_rows; eauto).
    simpl. eexists; split; [reflexivity|]. split.
    + unfold exp_map_SE3; rewrite !length_map; reflexivity.
    + unfold exp_map_SE3; apply Forall_map, Forall_map, Forall_forall.
      intros; apply exp_SE3_shape.
  - destruct (data p) as [|row [|? ?]]; try discriminate.
    simpl. eexists; split; [reflexivity|]. rewrite tile_singleton. split.
    + apply repeat_length.
    + apply Forall_forall; intros m Hm. apply repeat_spec in Hm; subst.
      apply exp_SO3xR3_shape.
Qed.

(** [forward] on a constructed instance whose mode is not [off], for
    in-range indices: the Lie-map step, then the overwrite by the mask. *)
Lemma forward_constructed_batch (self : CameraOptimizer) (indices : list Z) :
  constructed self -> in_range self indices -> mode (config self) <> off ->
  exists delta self',
    learned_delta self (batch indices) = Ok [delta]
    /\ length delta = length indices
    /\ Forall shape34 delta
    /\ forward self (batch indices)
       = (Ok match non_trainable_camera_indices self with
             | None => delta
             | Some t => overwrite delta (map (contains (data t)) indices)
             end, self').
Proof.
  intros C Hin M.
  destruct (learned_delta_constructed self indices C Hin M) as (delta & D & L & S).
  exists delta. unfold forward; rewrite D.
  destruct (non_trainable_camera_indices self) as [t|] eqn:E.
  - destruct C as [Hp Hf]. rewrite E in Hf. destruct Hf as (f & Hf & Hd).
    assert (exists p, pose_adjustment self = Some p) as [p Pp].
    { destruct (mode (config self)); [congruence | | | ];
        destruct Hp as [p [Hp _]]; eauto. }
    pose proof (detach_outcome self (batch indices) [delta] t p f E Pp Hf) as O.
    destruct (detach_non_trainable self (batch indices) [delta]) as [r self'].
    exists self'. repeat split; try assumption.
    simpl in O; subst r. rewrite Hd.
    rewrite gather_filter by exact Hin. simpl.
    rewrite L, length_map, Nat.eqb_refl. reflexivity.
  - rewrite detach_none by assumption. exists self.
    repeat split; assumption.
Qed.

Lemma overwrite_length (delta : list Matrix) (mask : list bool) :
  length delta = length mask -> length (overwrite delta mask) = length delta.
Proof. apply zip_with_length. Qed.

Lemma overwrite_shape (delta : list Matrix) (mask : list bool) :
  Forall shape34 delta -> Forall shape34 (overwrite delta mask).
Proof.
  intros H; revert mask; induction H as [|m delta Hm _ IH]; intros [|b mask];
    simpl; constructor.
  - destruct b; [apply eye34_shape | assumption].
  - apply IH.
Qed.

(** A constructed instance answers in-range indices with one 3x4 matrix per
    index, unless it is in mode [off] with a non-trainable set. *)
Lemma forward_constructed_total (self : CameraOptimizer) (indices : list Z) :
  constructed self -> in_range self indices ->
  mode (config self) <> off \/ non_trainable_camera_indices self = None ->
  exists out self',
    forward self (batch indices) = (Ok out, self')
    /\ length out = length indices
    /\ Forall shape34 out.
Proof.
  intros C Hin H.
  assert (mode (config self) = off \/ mode (config self) <> off) as [M|M]
    by (destruct (mode (config self)); [left | right | right | right];
        congruence).
  - destruct H as [H|H]; [congruence|].
    exists (repeat eye34 (length indices)), self.
    rewrite forward_off_plain by assumption.
    split; [reflexivity|]. split; [apply repeat_length|].
    apply Forall_forall; intros m Hm; apply repeat_spec in Hm; subst.
    apply eye34_shape.
  - destruct (forward_constructed_batch self indices C Hin M)
      as (dl & s' & _ & L & S & F).
    eexists; exists s'; split; [exact F|].
    destruct (non_trainable_camera_indices self); [|split; assumption].
    split; [rewrite overwrite_length; rewrite ?length_map; congruence|].
    apply overwrite_shape; assumption.
Qed.

End ForwardResults.

(** ** Mode [off] and the non-trainable block *)

Section OffMode.

Context {ops : PoseOps}.

(** In mode [off] no parameters exist; when a non-trainable set was given,
    the block that serves it reads [self.pose_adjustment.device] and raises
    before the fast path is reached. *)
Lemma forward_off_non_trainable (self : CameraOptimizer) (indices : squeezed Z) t :
  mode (config self) = off ->
  non_trainable_camera_indices self = Some t ->
  pose_adjustment self = None ->
  forward self indices = (Raise AttributeError, self).
Proof.
  intros M E P; unfold forward, learned_delta; rewrite M.
  rewrite (detach_no_parameters _ _ _ t) by assumption. reflexivity.
Qed.

End OffMode.

Lemma init_negative_penalty cfg n d nti sfx :
  (penalty_scale cfg < 0)%R ->
  __init__ cfg n d nti sfx
  = Ok (mkCameraOptimizer
          (mkConfig off (trans_l2_penalty cfg) (rot_l2_penalty cfg) (penalty_scale cfg))
          n d nti None
          (match sfx with Some s => s | None => EmptyString end)
          (match nti with
           | None => None
           | Some t => Some (mkTensor (map (contains (data t)) (range n)) d)
           end)).
Proof.
  intros H; unfold __init__.
  destruct (Rlt_dec (penalty_scale cfg) 0) as [_|N]; [reflexivity | contradiction].
Qed.

(** C1 (the code departs from the claim). An instance coerced to mode
    [off] by the penalty scale -1 and constructed with the non-trainable set
    {1}: [forward] on the batch [0, 1] does not return two identity
    transforms, it raises [AttributeError]. *)
Theorem forward_off_coerced_with_non_trainable_raises (ops : PoseOps) :
  exists self,
    __init__ (mkConfig SO3xR3 (/ 100) (/ 1000) (-1)) 2 "cpu"
      (Some (mkTensor [1%Z] "cpu")) None = Ok self
    /\ mode (config self) = off
    /\ forward self (batch [0; 1]%Z) = (Raise AttributeError, self).
Proof.
  eexists; split; [apply init_negative_penalty; simpl; lra|].
  split; [reflexivity|].
  eapply forward_off_non_trainable; reflexivity.
Qed.

(** C4 (the code departs from the claim). A constructed instance in mode
    [off] with the non-trainable set {0}: [forward] raises [AttributeError]
    on the empty batch and on the in-range batch [0, 2, 2]. *)
Theorem forward_off_with_non_trainable_raises (ops : PoseOps) :
  constructed off_with_non_trainable
  /\ in_range off_with_non_trainable [0; 2; 2]%Z
  /\ forward off_with_non_trainable (batch [])
     = (Raise AttributeError, off_with_non_trainable)
  /\ forward off_with_non_trainable (batch [0; 2; 2]%Z)
     = (Raise AttributeError, off_with_non_trainable).
Proof.
  split; [split; [reflexivity | eexists; split; reflexivity]|].
  split; [repeat constructor; simpl; lia|].
  split; eapply forward_off_non_trainable; reflexivity.
Qed.

(** ** The non-trainable mask *)

Lemma overwrite_nth_error (delta : list Matrix) (mask : list bool) (k : nat) b :
  length delta = length mask ->
  nth_error mask k = Some b ->
  nth_error (overwrite delta mask) k
  = if b then Some eye34 else nth_error delta k.
Proof.
  intros L Hb.
  destruct (nth_error delta k) as [m|] eqn:Hd.
  - unfold overwrite. rewrite (zip_with_nth_error _ _ _ _ _ _ Hd Hb).
    destruct b; reflexivity.
  - apply nth_error_None in Hd.
    assert (k < length mask) by (apply nth_error_Some; congruence). lia.
Qed.

(** C2. In every mode other than [off], for an instance constructed with
    a set of non-trainable camera indices and whatever the parameters hold,
    [forward] first runs the Lie-map step ([delta]) and then, at every batch
    position whose camera index is in the set, returns the exact identity
    3x4 transform; every other position keeps its row of [delta]. *)
Theorem forward_non_trainable_identity (ops : PoseOps) (self : CameraOptimizer)
    (indices : list Z) (t : Tensor (list Z)) :
  constructed self ->
  mode (config self) <> off ->
  non_trainable_camera_indices self = Some t ->
  in_range self indices ->
  exists delta out self',
    learned_delta self (batch indices) = Ok [delta]
    /\ forward self (batch indices) = (Ok out, self')
    /\ length out = length indices
    /\ (forall k i, nth_error indices k = Some i ->
          nth_error out k
          = if contains (data t) i then Some eye34 else nth_error delta k)
    /\ rotation eye34 = eye 3
    /\ translation eye34 = [0; 0; 0]%R.
Proof.
  intros C M E Hin.
  destruct (forward_constructed_batch self indices C Hin M)
    as (delta & self' & D & L & _ & F).
  rewrite E in F.
  exists delta, (overwrite delta (map (contains (data t)) indices)), self'.
  split; [exact D|]. split; [exact F|]. split; [|split; [|split; reflexivity]].
  - rewrite overwrite_length; rewrite ?length_map; congruence.
  - intros k i Hk. apply overwrite_nth_error.
    + rewrite length_map; exact L.
    + rewrite nth_error_map, Hk; reflexivity.
Qed.

Lemma three_cameras_constructed : constructed three_cameras.
Proof. split; eexists; split; reflexivity. Qed.

Lemma forward_non_trainable_identity_witness :
  exists delta out self',
    learned_delta three_cameras (batch [0; 1; 2; 1]%Z) = Ok [delta]
    /\ forward three_cameras (batch [0; 1; 2; 1]%Z) = (Ok out, self')
    /\ nth_error out 1 = Some eye34
    /\ nth_error out 3 = Some eye34
    /\ nth_error out 0 = nth_error delta 0.
Proof.
  destruct (forward_non_trainable_identity spec_pose_ops three_cameras
              [0; 1; 2; 1]%Z (mkTensor [1%Z] "cpu"))
    as (delta & out & self' & D & F & _ & P & _).
  - exact three_cameras_constructed.
  - simpl; discriminate.
  - reflexivity.
  - repeat constructor; simpl; lia.
  - exists delta, out, self'. split; [exact D|]. split; [exact F|].
    split; [exact (P 1 1%Z eq_refl)|].
    split; [exact (P 3 1%Z eq_refl) | exact (P 0 0%Z eq_refl)].
Defined.

(** ** The shared mode *)

Lemma learned_delta_shared (ops : PoseOps) (self : CameraOptimizer)
    (indices : list Z) p row :
  mode (config self) = shared_SO3xR3 ->
  pose_adjustment self = Some p ->
  data p = [row] ->
  learned_delta self (batch indices)
  = Ok [repeat (exp_SO3xR3_row row) (length indices)].
Proof.
  intros M P D; unfold learned_delta, get_pose_adjustment; rewrite M, P; simpl.
  rewrite D; simpl. rewrite tile_singleton; reflexivity.
Qed.

(** Away from the threshold the angle is not zero, so no quotient of the
    closed forms has a zero divisor. *)
Lemma checked_div_nonzero (x y : R) :
  y <> 0%R -> checked_div x y = Some (x / y)%R.
Proof.
  intros N. unfold checked_div.
  destruct (Req_EM_T y 0) as [E|_]; [contradiction | reflexivity].
Qed.

Lemma angle_away_from_zero (w : list R) :
  near_zero w = false -> (0 < angle w)%R.
Proof.
  unfold near_zero.
  destruct (Rlt_dec (angle w) near_zero_threshold) as [_|H]; [discriminate|].
  intros _. unfold near_zero_threshold in H. lra.
Qed.

Lemma coefficients_defined (w : list R) :
  exists a b c,
    sine_by_theta w = Some a
    /\ one_minus_cosine_by_theta2 w = Some b
    /\ theta_minus_sine_by_theta3 w = Some c.
Proof.
  unfold sine_by_theta, one_minus_cosine_by_theta2, theta_minus_sine_by_theta3.
  destruct (near_zero w) eqn:N; [do 3 eexists; repeat split; reflexivity|].
  pose proof (angle_away_from_zero w N) as P.
  rewrite !checked_div_nonzero; [do 3 eexists; repeat split; reflexivity | | | ].
  - assert (0 < angle w * angle w * angle w)%R
      by (repeat apply Rmult_lt_0_compat; assumption). lra.
  - assert (0 < angle w * angle w)%R
      by (apply Rmult_lt_0_compat; assumption). lra.
  - lra.
Qed.

(** The checked Lie maps yield a matrix for every row. *)
Lemma exp_SO3xR3_checked_defined (v : list R) :
  exists a b,
    exp_SO3xR3_checked v
    = Some (transform (rodrigues a b (skew (skipn 3 v)))
              [nth 0 v 0; nth 1 v 0; nth 2 v 0]%R).
Proof.
  destruct (coefficients_defined (skipn 3 v)) as (a & b & _ & A & B & _).
  exists a, b. unfold exp_SO3xR3_checked, exp_SO3. rewrite A, B. reflexivity.
Qed.

Lemma exp_SE3_checked_defined (v : list R) :
  exists a b c,
    exp_SE3_checked v
    = Some (transform (rodrigues a b (skew (skipn 3 v)))
              (map (fun row => dot row [nth 0 v 0; nth 1 v 0; nth 2 v 0]%R)
                 (rodrigues b c (skew (skipn 3 v))))).
Proof.
  destruct (coefficients_defined (skipn 3 v)) as (a & b & c & A & B & C).
  exists a, b, c. unfold exp_SE3_checked, exp_SO3, SE3_coupling.
  rewrite A, B, C. reflexivity.
Qed.

Lemma spec_exp_SO3xR3_translation (v : list R) :
  translation (spec_exp_SO3xR3_row v) = [nth 0 v 0; nth 1 v 0; nth 2 v 0]%R.
Proof.
  destruct (exp_SO3xR3_checked_defined v) as (a & b & E).
  unfold spec_exp_SO3xR3_row. rewrite E. reflexivity.
Qed.

(** C3, counterexample. Two cameras in the shared mode, camera 1
    non-trainable, the shared row moved by one unit of translation: the
    corrections of cameras 0 and 1 differ, the first carries the translation
    and the second is the identity. *)
Lemma shared_rows_differ_with_mask :
  mode (config two_cameras_shared) = shared_SO3xR3
  /\ constructed two_cameras_shared
  /\ exists out self',
       @forward spec_pose_ops two_cameras_shared (batch [0; 1]%Z) = (Ok out, self')
       /\ nth_error out 0 <> nth_error out 1.
Proof.
  split; [reflexivity|]. split; [split; eexists; split; reflexivity|].
  destruct (forward_constructed_batch (ops := spec_pose_ops) two_cameras_shared
              [0; 1]%Z) as (delta & self' & D & _ & _ & F).
  - split; eexists; split; reflexivity.
  - repeat constructor; simpl; lia.
  - simpl; discriminate.
  - rewrite (learned_delta_shared spec_pose_ops two_cameras_shared [0; 1]%Z
               (mkTensor [[1; 0; 0; 0; 0; 0]%R] "cpu") [1; 0; 0; 0; 0; 0]%R
               eq_refl eq_refl eq_refl) in D.
    inversion D; subst delta; clear D.
    eexists; exists self'; split; [exact F|].
    intros E.
    apply (f_equal (fun o => match o with
                             | Some m => nth 0 (translation m) 0%R
                             | None => 0%R
                             end)) in E.
    cbn [nth_error repeat length overwrite zip_with map contains existsb data
         Z.eqb Pos.eqb orb] in E.
    rewrite spec_exp_SO3xR3_translation, eye34_translation in E.
    cbn [nth] in E. lra.
Qed.

(** C3, amended. In the shared mode, whatever the shared row holds, the
    corrections at two batch positions are equal whenever their camera
    indices are both inside or both outside the non-trainable set; without a
    non-trainable set they are equal at any two positions. *)
Theorem shared_rows_equal (ops : PoseOps) (self : CameraOptimizer)
    (indices : list Z) :
  constructed self ->
  mode (config self) = shared_SO3xR3 ->
  in_range self indices ->
  exists out self',
    forward self (batch indices) = (Ok out, self')
    /\ length out = length indices
    /\ forall j k ij ik,
         nth_error indices j = Some ij ->
         nth_error indices k = Some ik ->
         match non_trainable_camera_indices self with
         | None => True
         | Some t => contains (data t) ij = contains (data t) ik
         end ->
         nth_error out j = nth_error out k.
Proof.
  intros C M Hin.
  destruct (forward_constructed_batch self indices C Hin)
    as (delta & self' & D & L & _ & F); [congruence|].
  assert (exists m, delta = repeat m (length indices)) as [m ->].
  { destruct C as [Hp _]. rewrite M in Hp. destruct Hp as (p & Hp & Hl).
    destruct (data p) as [|row [|? ?]] eqn:Dp; try discriminate.
    rewrite (learned_delta_shared ops self indices p row M Hp Dp) in D.
    inversion D; eauto. }
  assert (Hlt : forall j i, nth_error indices j = Some i -> j < length indices).
  { intros j i Hj; apply nth_error_Some; congruence. }
  eexists; exists self'; split; [exact F|].
  destruct (non_trainable_camera_indices self) as [t|].
  - split; [rewrite overwrite_length; rewrite ?length_map; congruence|].
    intros j k ij ik Hj Hk Hm.
    rewrite (overwrite_nth_error _ _ j (contains (data t) ij)),
            (overwrite_nth_error _ _ k (contains (data t) ik));
      rewrite ?length_map, ?repeat_length, ?nth_error_map, ?Hj, ?Hk;
      try reflexivity.
    rewrite Hm, !nth_error_repeat_lt by eauto. reflexivity.
  - split; [exact L|].
    intros j k ij ik Hj Hk _. rewrite !nth_error_repeat_lt by eauto. reflexivity.
Qed.

Lemma shared_rows_equal_witness :
  exists out self',
    @forward spec_pose_ops two_cameras_shared_plain (batch [0; 1]%Z) = (Ok out, self')
    /\ nth_error out 0 = nth_error out 1.
Proof.
  destruct (shared_rows_equal spec_pose_ops two_cameras_shared_plain [0; 1]%Z)
    as (out & self' & F & _ & P).
  - split; [eexists; split; reflexivity | reflexivity].
  - reflexivity.
  - repeat constructor; simpl; lia.
  - exists out, self'. split; [exact F|].
    exact (P 0 1 0%Z 1%Z eq_refl eq_refl I).
Defined.

(** ** The per-camera modes *)

Lemma mapM_Forall2 {A B : Type} (f : A -> result B) (l : list A) (bs : list B) :
  mapM f l = Ok bs -> Forall2 (fun a b => f a = Ok b) l bs.
Proof.
  revert bs; induction l as [|a l IH]; intros bs E; simpl in E.
  - inversion E; constructor.
  - destruct (f a) as [b|e] eqn:Fa; simpl in E; [|discriminate].
    destruct (mapM f l) as [bs'|e] eqn:Fl; simpl in E; [|discriminate].
    inversion E; subst. constructor; [assumption | apply IH; reflexivity].
Qed.

Lemma Forall2_nth_error {A B : Type} (P : A -> B -> Prop) (l : list A)
    (bs : list B) :
  Forall2 P l bs ->
  forall k a, nth_error l k = Some a -> exists b, nth_error bs k = Some b /\ P a b.
Proof.
  induction 1 as [|x y l bs Hxy _ IH]; intros [|k] a Hk; simpl in *;
    try discriminate.
  - inversion Hk; subst; eauto.
  - eauto.
Qed.

Lemma Forall2_functional {A B : Type} (f : A -> result B) (l : list A)
    (bs : list B) (j k : nat) :
  Forall2 (fun a b => f a = Ok b) l bs ->
  nth_error l j = nth_error l k -> nth_error bs j = nth_error bs k.
Proof.
  intros F E.
  pose proof (Forall2_length F) as L.
  destruct (nth_error l j) as [a|] eqn:Hj.
  - symmetry in E.
    destruct (Forall2_nth_error _ _ _ F j a Hj) as (b & Hb & Fb).
    destruct (Forall2_nth_error _ _ _ F k a E) as (b' & Hb' & Fb').
    congruence.
  - symmetry in E. apply nth_error_None in Hj, E.
    assert (nth_error bs j = None) as -> by (apply nth_error_None; lia).
    symmetry; apply nth_error_None; lia.
Qed.

Section PerCamera.

Context {ops : PoseOps}.

Lemma Forall2_overwrite (P : Z -> list R -> Prop) (Q : Z -> bool -> Prop)
    (e : list R -> Matrix) (indices : list Z) (rows : list (list R))
    (mask : list bool) :
  Forall2 P indices rows -> Forall2 Q indices mask ->
  Forall2 (fun i m => exists row b, P i row /\ Q i b
                                    /\ m = if b then eye34 else e row)
    indices (overwrite (map e rows) mask).
Proof.
  intros HP; revert mask; induction HP as [|i row indices rows Hi _ IH];
    intros mask HQ; inversion HQ; subst; simpl; constructor.
  - exists row; eauto.
  - apply IH; assumption.
Qed.

(** In a per-camera mode every successful call of [forward] pairs each
    index of the batch with [correction_at] of that index. *)
Lemma forward_per_camera_rows (self self' : CameraOptimizer) (indices : list Z)
    (out : list Matrix) :
  mode (config self) = SO3xR3 \/ mode (config self) = SE3 ->
  forward self (batch indices) = (Ok out, self') ->
  Forall2 (fun i m => correction_at self i = Ok m) indices out.
Proof.
  intros M F. unfold forward in F.
  set (e := match mode (config self) with
            | SE3 => exp_SE3_row
            | _ => exp_SO3xR3_row
            end).
  assert (exists p rows,
             pose_adjustment self = Some p
             /\ gather (data p) indices = Ok rows
             /\ learned_delta self (batch indices) = Ok [map e rows])
    as (p & rows & Pp & G & D).
  { unfold learned_delta, get_pose_adjustment, lie_input in *.
    destruct (pose_adjustment self) as [p|] eqn:Pp;
      [|destruct M as [M|M]; rewrite M in F; discriminate].
    exists p. simpl in *.
    destruct (gather (data p) indices) as [rows|err] eqn:G;
      [|destruct M as [M|M]; rewrite M in F; discriminate].
    exists rows. subst e.
    destruct M as [M|M]; rewrite M; repeat split; reflexivity. }
  rewrite D in F.
  pose proof (mapM_Forall2 _ _ _ G) as FG.
  unfold correction_at, get_pose_adjustment; rewrite Pp; simpl.
  destruct (non_trainable_camera_indices self) as [t|] eqn:E.
  - destruct (non_trainable_camera_filter self) as [f|] eqn:Ef.
    + pose proof (detach_outcome self (batch indices) [map e rows] t p f E Pp Ef) as O.
      destruct (detach_non_trainable self (batch indices) [map e rows]) as [r s].
      simpl in O; subst r.
      destruct (gather (data f) indices) as [mask|err] eqn:Gf; [|discriminate].
      simpl in F.
      destruct (length (map e rows) =? length mask); [|discriminate].
      simpl in F. inversion F; subst out s; clear F.
      pose proof (mapM_Forall2 _ _ _ Gf) as FM.
      eapply Forall2_impl; [|exact (Forall2_overwrite _ _ e _ _ _ FG FM)].
      intros i m (row & b & Hr & Hb & ->). rewrite Hr; simpl. rewrite Hb; simpl.
      subst e. destruct (mode (config self)); reflexivity.
    + unfold detach_non_trainable in F. rewrite E, Pp in F.
      destruct (String.eqb (dev t) (dev p)); simpl in F; rewrite Ef in F;
        discriminate.
  - rewrite detach_none in F by assumption. simpl in F.
    inversion F; subst out self'; clear F.
    clear -FG. induction FG as [|i row indices rows Hi _ IH]; simpl; constructor.
    + rewrite Hi; simpl. subst e. destruct (mode (config self)); reflexivity.
    + exact IH.
Qed.

End PerCamera.

(** C10. In the modes [SO3xR3] and [SE3], whatever the parameters and
    the mask hold, the row [forward] returns at a batch position is
    [correction_at] of the camera index held there, a function of that index
    and of the instance alone: the same index gives the same row, within a
    batch (duplicates) and across batches; and a constructed instance does
    answer every in-range batch. *)
Theorem forward_per_camera_pointwise (ops : PoseOps) (self : CameraOptimizer) :
  mode (config self) = SO3xR3 \/ mode (config self) = SE3 ->
  (forall indices out self',
      forward self (batch indices) = (Ok out, self') ->
      Forall2 (fun i m => correction_at self i = Ok m) indices out
      /\ forall j k, nth_error indices j = nth_error indices k ->
                     nth_error out j = nth_error out k)
  /\ (forall indices1 indices2 out1 out2 self1 self2 j k i,
         forward self (batch indices1) = (Ok out1, self1) ->
         forward self (batch indices2) = (Ok out2, self2) ->
         nth_error indices1 j = Some i -> nth_error indices2 k = Some i ->
         nth_error out1 j = nth_error out2 k)
  /\ (forall indices,
         constructed self -> in_range self indices ->
         exists out self',
           forward self (batch indices) = (Ok out, self')
           /\ length out = length indices).
Proof.
  intros M. split; [|split].
  - intros indices out self' F.
    pose proof (forward_per_camera_rows self self' indices out M F) as R.
    split; [exact R|].
    intros j k; apply (Forall2_functional _ _ _ j k R).
  - intros indices1 indices2 out1 out2 self1 self2 j k i F1 F2 Hj Hk.
    pose proof (forward_per_camera_rows _ _ _ _ M F1) as R1.
    pose proof (forward_per_camera_rows _ _ _ _ M F2) as R2.
    destruct (Forall2_nth_error _ _ _ R1 j i Hj) as (m1 & H1 & C1).
    destruct (Forall2_nth_error _ _ _ R2 k i Hk) as (m2 & H2 & C2).
    congruence.
  - intros indices C Hin.
    destruct (forward_constructed_total self indices C Hin) as (out & s & F & L & _).
    + left; destruct M as [M|M]; rewrite M; discriminate.
    + eauto.
Qed.

Lemma forward_per_camera_pointwise_witness :
  exists out self',
    @forward spec_pose_ops three_cameras (batch [2; 0; 2; 0]%Z) = (Ok out, self')
    /\ nth_error out 0 = nth_error out 2
    /\ nth_error out 1 = nth_error out 3.
Proof.
  destruct (forward_per_camera_pointwise spec_pose_ops three_cameras)
    as (P & _ & T); [left; reflexivity|].
  destruct (T [2; 0; 2; 0]%Z) as (out & self' & F & _).
  - exact three_cameras_constructed.
  - repeat constructor; simpl; lia.
  - exists out, self'. split; [exact F|].
    destruct (P _ _ _ F) as [_ D].
    split; [exact (D 0 2 eq_refl) | exact (D 1 3 eq_refl)].
Defined.

(** ** Zero parameters *)

Lemma Forall_eq_repeat {A : Type} (x : A) (l : list A) :
  Forall (eq x) l -> l = repeat x (length l).
Proof.
  induction 1 as [|y l Hy _ IH]; simpl; [reflexivity|]. subst; f_equal; exact IH.
Qed.

Lemma getitem_In {A : Type} (t : list A) (i : Z) (a : A) :
  getitem t i = Ok a -> In a t.
Proof.
  unfold getitem. destruct (wrap_index (length t) i) as [k|]; [|discriminate].
  destruct (nth_error t k) as [b|] eqn:E; [|discriminate].
  intros H; inversion H; subst. eapply nth_error_In; eassumption.
Qed.

Lemma gather_In {A : Type} (t : list A) (indices : list Z) (rows : list A) :
  gather t indices = Ok rows -> Forall (fun row => In row t) rows.
Proof.
  intros G. apply mapM_Forall2 in G.
  induction G as [|i row indices rows Hi _ IH]; constructor.
  - eapply getitem_In; eassumption.
  - exact IH.
Qed.

Lemma overwrite_identity (delta : list Matrix) (mask : list bool) :
  Forall (eq eye34) delta -> Forall (eq eye34) (overwrite delta mask).
Proof.
  intros H; revert mask; induction H as [|m delta Hm _ IH]; intros [|b mask];
    simpl; constructor.
  - destruct b; [reflexivity | assumption].
  - apply IH.
Qed.

Section ZeroParameters.

Context {ops : PoseOps}.

(** Whatever the Lie maps are, if they send every parameter row to the
    identity, so does the Lie-map step of [forward]. *)
Lemma learned_delta_identity (self : CameraOptimizer) (indices : list Z) delta :
  (forall p, pose_adjustment self = Some p ->
             Forall (fun row => exp_SO3xR3_row row = eye34
                                /\ exp_SE3_row row = eye34) (data p)) ->
  learned_delta self (batch indices) = Ok [delta] ->
  Forall (eq eye34) delta.
Proof.
  intros Z D. unfold learned_delta, get_pose_adjustment, lie_input in D.
  destruct (mode (config self)); [discriminate | | | ];
    destruct (pose_adjustment self) as [p|]; try discriminate;
    specialize (Z p eq_refl); rewrite Forall_forall in Z; simpl in D.
  - destruct (gather (data p) indices) as [rows|e] eqn:G; [|discriminate].
    simpl in D; inversion D; subst delta.
    apply gather_In in G. unfold exp_map_SO3xR3.
    apply Forall_map. eapply Forall_impl; [|exact G].
    intros row Hr; simpl. symmetry; apply Z; assumption.
  - destruct (gather (data p) indices) as [rows|e] eqn:G; [|discriminate].
    simpl in D; inversion D; subst delta.
    apply gather_In in G. unfold exp_map_SE3.
    apply Forall_map. eapply Forall_impl; [|exact G].
    intros row Hr; simpl. symmetry; apply Z; assumption.
  - inversion D; subst delta. unfold tile, exp_map_SO3xR3.
    apply Forall_concat, Forall_forall. intros l Hl.
    apply repeat_spec in Hl; subst l.
    apply Forall_map, Forall_forall. intros row Hr. symmetry; apply Z; assumption.
Qed.

Lemma forward_identity (self : CameraOptimizer) (indices : list Z) :
  constructed self -> in_range self indices -> mode (config self) <> off ->
  (forall p, pose_adjustment self = Some p ->
             Forall (fun row => exp_SO3xR3_row row = eye34
                                /\ exp_SE3_row row = eye34) (data p)) ->
  exists self',
    forward self (batch indices) = (Ok (repeat eye34 (length indices)), self').
Proof.
  intros C Hin M Z.
  destruct (forward_constructed_batch self indices C Hin M)
    as (delta & self' & D & L & _ & F).
  pose proof (learned_delta_identity self indices delta Z D) as I.
  exists self'. rewrite F. do 2 f_equal.
  destruct (non_trainable_camera_indices self) as [t|].
  - rewrite (Forall_eq_repeat eye34 _ (overwrite_identity _ _ I)).
    rewrite overwrite_length; rewrite ?length_map; congruence.
  - rewrite (Forall_eq_repeat eye34 _ I). congruence.
Qed.

End ZeroParameters.

Lemma init_nonnegative_penalty cfg n d nti sfx :
  (0 <= penalty_scale cfg)%R ->
  __init__ cfg n d nti sfx
  = (pose_adjustment <-
       match mode cfg with
       | off => Ok None
       | SO3xR3 | SE3 => z <- zeros n 6 ;; Ok (Some (mkTensor z d))
       | shared_SO3xR3 => z <- zeros 1 6 ;; Ok (Some (mkTensor z d))
       end ;;
     Ok (mkCameraOptimizer cfg n d nti pose_adjustment
           (match sfx with Some s => s | None => EmptyString end)
           (match nti with
            | None => None
            | Some t => Some (mkTensor (map (contains (data t)) (range n)) d)
            end))).
Proof.
  intros H; unfold __init__.
  destruct (Rlt_dec (penalty_scale cfg) 0) as [N|_]; [lra | reflexivity].
Qed.

(** The constructor leaves the parameters at zero. *)
Lemma init_zero_parameters cfg n d nti sfx (self : CameraOptimizer) :
  __init__ cfg n d nti sfx = Ok self -> zero_parameters self.
Proof.
  unfold __init__.
  set (cfg' := if Rlt_dec (penalty_scale cfg) 0 then _ else cfg).
  assert (Hz : forall k z, zeros k 6 = Ok z ->
                           Forall (fun row => row = repeat 0%R 6) z).
  { intros k z; unfold zeros; destruct (k <? 0)%Z; [discriminate|].
    intros E; inversion E. apply Forall_forall; intros row Hr.
    apply repeat_spec in Hr; exact Hr. }
  destruct (mode cfg').
  - simpl; intros E; inversion E; exact I.
  - destruct (zeros n 6) as [z|e] eqn:Z6; simpl; [|discriminate].
    intros E; inversion E; unfold zero_parameters; simpl; eauto.
  - destruct (zeros n 6) as [z|e] eqn:Z6; simpl; [|discriminate].
    intros E; inversion E; unfold zero_parameters; simpl; eauto.
  - destruct (zeros 1 6) as [z|e] eqn:Z6; [|discriminate].
    cbn [bind]. intros E; inversion E; unfold zero_parameters; cbn [pose_adjustment data]; eauto.
Qed.

(** The zero rotation lies under the threshold. *)
Lemma near_zero_at_zero : near_zero [0; 0; 0]%R = true.
Proof.
  assert (A : angle [0; 0; 0]%R = 0%R).
  { unfold angle, norm, sum; simpl.
    replace (0 * 0 + (0 * 0 + (0 * 0 + 0)))%R with 0%R by ring. apply sqrt_0. }
  unfold near_zero. rewrite A.
  destruct (Rlt_dec 0 near_zero_threshold) as [_|H]; [reflexivity|].
  unfold near_zero_threshold in H; lra.
Qed.

(** Equal lists entry by entry, the entries being equal as real numbers. *)
Ltac entrywise :=
  repeat match goal with
         | |- (_ :: _) = (_ :: _) => apply (f_equal2 cons)
         | |- [] = [] => reflexivity
         end;
  try ring.

(** The checked Lie maps at the zero row: a matrix, and the identity. *)
Lemma exp_SO3xR3_checked_zero : exp_SO3xR3_checked (repeat 0%R 6) = Some eye34.
Proof.
  unfold exp_SO3xR3_checked, exp_SO3, sine_by_theta, one_minus_cosine_by_theta2.
  change (skipn 3 (repeat 0%R 6)) with [0; 0; 0]%R.
  rewrite near_zero_at_zero. cbn [and_then]. f_equal.
  rewrite eye34_entries.
  unfold transform, rodrigues, mat_add, mat_scale, mat_product, skew, dot,
    sum, column, cols, eye.
  cbn [map seq Nat.eqb zip_with fold_right app nth repeat length].
  entrywise.
Qed.

Lemma exp_SE3_checked_zero : exp_SE3_checked (repeat 0%R 6) = Some eye34.
Proof.
  unfold exp_SE3_checked, exp_SO3, SE3_coupling, sine_by_theta,
    one_minus_cosine_by_theta2, theta_minus_sine_by_theta3.
  change (skipn 3 (repeat 0%R 6)) with [0; 0; 0]%R.
  rewrite near_zero_at_zero. cbn [and_then]. f_equal.
  rewrite eye34_entries.
  unfold transform, rodrigues, mat_add, mat_scale, mat_product, skew, dot,
    sum, column, cols, eye.
  cbn [map seq Nat.eqb zip_with fold_right app nth repeat length].
  entrywise.
Qed.

Lemma spec_exp_SO3xR3_zero : spec_exp_SO3xR3_row (repeat 0%R 6) = eye34.
Proof.
  unfold spec_exp_SO3xR3_row. rewrite exp_SO3xR3_checked_zero. reflexivity.
Qed.

Lemma spec_exp_SE3_zero : spec_exp_SE3_row (repeat 0%R 6) = eye34.
Proof.
  unfold spec_exp_SE3_row. rewrite exp_SE3_checked_zero. reflexivity.
Qed.

(** A matrix without numbers is not the identity. *)
Lemma not_a_number_not_identity : not_a_number34 <> eye34.
Proof.
  intros E.
  apply (f_equal (fun m => nth 0 (nth 0 m []) 0%R)) in E.
  cbn [not_a_number34 repeat nth] in E. rewrite eye34_entries in E.
  cbn [nth] in E. lra.
Qed.

(** C5. With the Lie maps of the spec, an instance in mode [SO3xR3],
    [SE3] or [shared_SO3xR3] whose parameters are all zero returns the exact
    identity 3x4 transform at every batch position.  The decoupled and the
    coupled map, with every division checked, both yield a matrix at the zero
    row, the identity: no division by zero is met at the zero rotation
    angle, where it would leave a matrix without numbers, which is not the
    identity.  Nor is one met at any other row. *)
Theorem zero_parameters_identity (self : CameraOptimizer) (indices : list Z) :
  constructed self ->
  zero_parameters self ->
  mode (config self) <> off ->
  in_range self indices ->
  (exists self',
      @forward spec_pose_ops self (batch indices)
      = (Ok (repeat eye34 (length indices)), self'))
  /\ exp_SO3xR3_checked (repeat 0%R 6) = Some eye34
  /\ exp_SE3_checked (repeat 0%R 6) = Some eye34
  /\ (forall v, exists m,
        exp_SO3xR3_checked v = Some m /\ spec_exp_SO3xR3_row v = m)
  /\ (forall v, exists m,
        exp_SE3_checked v = Some m /\ spec_exp_SE3_row v = m)
  /\ not_a_number34 <> eye34
  /\ rotation eye34 = eye 3
  /\ translation eye34 = [0; 0; 0]%R.
Proof.
  intros C Z M Hin.
  split; [|split; [|split; [|split; [|split; [|split; [|split]]]]]].
  - apply (forward_identity (ops := spec_pose_ops)); try assumption.
    intros p Hp. unfold zero_parameters in Z; rewrite Hp in Z.
    eapply Forall_impl; [|exact Z].
    intros row ->. split; [exact spec_exp_SO3xR3_zero | exact spec_exp_SE3_zero].
  - exact exp_SO3xR3_checked_zero.
  - exact exp_SE3_checked_zero.
  - intros v. destruct (exp_SO3xR3_checked_defined v) as (a & b & E).
    eexists. split; [exact E|]. unfold spec_exp_SO3xR3_row. rewrite E.
    reflexivity.
  - intros v. destruct (exp_SE3_checked_defined v) as (a & b & c & E).
    eexists. split; [exact E|]. unfold spec_exp_SE3_row. rewrite E.
    reflexivity.
  - exact not_a_number_not_identity.
  - reflexivity.
  - reflexivity.
Qed.

Lemma zero_parameters_identity_witness :
  exists self self',
    __init__ (mkConfig SE3 (/ 100) (/ 1000) 1) 2 "cpu"
      (Some (mkTensor [0%Z] "cpu")) None = Ok self
    /\ @forward spec_pose_ops self (batch [0; 1; 1]%Z)
       = (Ok [eye34; eye34; eye34], self').
Proof.
  pose (cfg := mkConfig SE3 (/ 100) (/ 1000) 1).
  assert (I0 : exists self,
             __init__ cfg 2 "cpu" (Some (mkTensor [0%Z] "cpu")) None = Ok self
             /\ mode (config self) = SE3 /\ num_cameras self = 2%Z).
  { rewrite init_nonnegative_penalty by (simpl; lra).
    eexists; split; [reflexivity|]. split; reflexivity. }
  destruct I0 as (self & I0 & M & N).
  destruct (zero_parameters_identity self [0; 1; 1]%Z) as [[self' F] _].
  - exact (init_constructed _ _ _ _ _ _ I0).
  - exact (init_zero_parameters _ _ _ _ _ _ I0).
  - rewrite M; discriminate.
  - unfold in_range; rewrite N. repeat constructor; lia.
  - exists self, self'. split; [exact I0 | exact F].
Defined.

(** ** The mode of an instance *)

Section ModeKept.

Context {ops : PoseOps}.

Lemma apply_to_raybundle_config (self : CameraOptimizer) (raybundle : RayBundle) :
  config (snd (fst (apply_to_raybundle self raybundle))) = config self.
Proof.
  unfold apply_to_raybundle.
  destruct (Mode_eqb (mode (config self)) off); [reflexivity|].
  pose proof (forward_keeps self (squeeze (camera_indices raybundle))) as K.
  destruct (forward self (squeeze (camera_indices raybundle))) as [r self'].
  destruct K as [K _]; simpl in K.
  destruct r as [c|e]; [|exact K].
  destruct (add_rows _ _); [|exact K].
  match goal with |- context [match ?x with Ok _ => _ | Raise _ => _ end] =>
    destruct x end; exact K.
Qed.

Lemma apply_to_camera_config (self : CameraOptimizer) (camera : Cameras) :
  config (snd (fst (apply_to_camera self camera))) = config self.
Proof.
  unfold apply_to_camera.
  destruct (Mode_eqb (mode (config self)) off); [reflexivity|].
  destruct (metadata camera) as [md|]; [|reflexivity].
  destruct (dict_get md "cam_idx") as [i|]; [|reflexivity].
  pose proof (forward_keeps self (batch [i])) as K.
  destruct (forward self (batch [i])) as [r self'].
  destruct K as [K _]; simpl in K.
  match goal with |- context [match ?x with Ok _ => _ | Raise _ => _ end] =>
    destruct x end; exact K.
Qed.

Lemma get_correction_matrices_config (self : CameraOptimizer) :
  config (snd (get_correction_matrices self)) = config self.
Proof.
  unfold get_correction_matrices.
  destruct (num_cameras self <? 0)%Z; [reflexivity|].
  apply forward_keeps.
Qed.

End ModeKept.

(** C6. A negative penalty scale makes the constructor succeed with mode
    [off] and no parameters, whatever mode was configured; a non-negative
    one keeps the configured mode (and the constructor succeeds for a
    non-negative number of cameras); and no method that hands the object
    back changes its configuration, hence its mode. *)
Theorem init_mode (ops : PoseOps) cfg n d nti sfx :
  ((penalty_scale cfg < 0)%R ->
   exists self,
     __init__ cfg n d nti sfx = Ok self
     /\ mode (config self) = off
     /\ pose_adjustment self = None
     /\ parameters self = [])
  /\ ((0 <= penalty_scale cfg)%R ->
      (forall self, __init__ cfg n d nti sfx = Ok self ->
                    mode (config self) = mode cfg)
      /\ ((0 <= n)%Z -> exists self, __init__ cfg n d nti sfx = Ok self))
  /\ (forall self indices raybundle camera,
         config (snd (forward self indices)) = config self
         /\ config (snd (fst (apply_to_raybundle self raybundle))) = config self
         /\ config (snd (fst (apply_to_camera self camera))) = config self
         /\ config (snd (get_correction_matrices self)) = config self).
Proof.
  split; [|split].
  - intros H. rewrite init_negative_penalty by assumption.
    eexists; split; [reflexivity|]. repeat split.
  - intros H. rewrite init_nonnegative_penalty by assumption. split.
    + intros self. destruct (mode cfg) eqn:M; simpl.
      * intros E; inversion E; simpl; congruence.
      * destruct (zeros n 6); simpl; [|discriminate].
        intros E; inversion E; simpl; congruence.
      * destruct (zeros n 6); simpl; [|discriminate].
        intros E; inversion E; simpl; congruence.
      * intros E; inversion E; simpl; congruence.
    + intros Hn. unfold zeros.
      replace (n <? 0)%Z with false by (symmetry; apply Z.ltb_ge; lia).
      destruct (mode cfg); simpl; eexists; reflexivity.
  - intros self indices raybundle camera. split; [apply forward_keeps|].
    split; [apply apply_to_raybundle_config|].
    split; [apply apply_to_camera_config | apply get_correction_matrices_config].
Qed.

Lemma init_mode_witness :
  (exists self,
      __init__ (mkConfig SE3 (/ 100) (/ 1000) (-1)) 3 "cpu" None None = Ok self
      /\ mode (config self) = off /\ pose_adjustment self = None)
  /\ (exists self,
         __init__ (mkConfig SE3 (/ 100) (/ 1000) 0) 3 "cpu" None None = Ok self
         /\ mode (config self) = SE3).
Proof.
  split.
  - destruct (init_mode spec_pose_ops (mkConfig SE3 (/ 100) (/ 1000) (-1)) 3
                "cpu" None None) as (A & _ & _).
    destruct A as (self & I & M & P & _); [simpl; lra|].
    exists self; repeat split; assumption.
  - destruct (init_mode spec_pose_ops (mkConfig SE3 (/ 100) (/ 1000) 0) 3
                "cpu" None None) as (_ & B & _).
    destruct B as (K & T); [simpl; lra|].
    destruct T as (self & I); [lia|].
    exists self; split; [exact I | exact (K self I)].
Defined.

(** ** [apply_to_camera] *)

Lemma Mode_eqb_off (m : Mode) : Mode_eqb m off = true <-> m = off.
Proof. destruct m; simpl; split; congruence. Qed.

Lemma Mode_eqb_not_off (m : Mode) : m <> off -> Mode_eqb m off = false.
Proof. destruct m; simpl; congruence. Qed.

(** C7. In every mode other than [off], [apply_to_camera] raises the
    assertion error when the metadata of the camera is absent or holds no
    camera identifier, and hands back the optimizer and the camera, its
    camera-to-world transform included, as they were; in mode [off] the call
    succeeds and changes nothing, whatever the metadata. *)
Theorem apply_to_camera_precondition (ops : PoseOps) (self : CameraOptimizer)
    (camera : Cameras) :
  (mode (config self) <> off ->
   metadata camera = None
   \/ (exists md, metadata camera = Some md /\ dict_get md "cam_idx" = None) ->
   apply_to_camera self camera = (Raise AssertionError, self, camera))
  /\ (mode (config self) = off ->
      apply_to_camera self camera = (Ok tt, self, camera)).
Proof.
  split.
  - intros M H. unfold apply_to_camera. rewrite Mode_eqb_not_off by assumption.
    destruct H as [H | (md & H & G)]; rewrite H; [reflexivity|].
    rewrite G; reflexivity.
  - intros M. unfold apply_to_camera.
    rewrite (proj2 (Mode_eqb_off _) M). reflexivity.
Qed.

Lemma apply_to_camera_precondition_witness :
  @apply_to_camera spec_pose_ops three_cameras camera_without_metadata
  = (Raise AssertionError, three_cameras, camera_without_metadata)
  /\ @apply_to_camera spec_pose_ops three_cameras camera_without_identifier
     = (Raise AssertionError, three_cameras, camera_without_identifier)
  /\ @apply_to_camera spec_pose_ops off_with_non_trainable camera_without_metadata
     = (Ok tt, off_with_non_trainable, camera_without_metadata).
Proof.
  split; [|split].
  - apply (proj1 (apply_to_camera_precondition spec_pose_ops three_cameras
                    camera_without_metadata)).
    + simpl; discriminate.
    + left; reflexivity.
  - apply (proj1 (apply_to_camera_precondition spec_pose_ops three_cameras
                    camera_without_identifier)).
    + simpl; discriminate.
    + right; eexists; split; reflexivity.
  - apply (proj2 (apply_to_camera_precondition spec_pose_ops
                    off_with_non_trainable camera_without_metadata)).
    reflexivity.
Defined.

(** ** [get_loss_dict] *)

Lemma dict_get_set {V : Type} (d : dict V) (k : string) (v : V) :
  dict_get (dict_set d k v) k = Some v.
Proof.
  induction d as [|[k' v'] d IH]; simpl.
  - rewrite String.eqb_refl; reflexivity.
  - destruct (String.eqb k' k) eqn:E; simpl.
    + rewrite String.eqb_refl; reflexivity.
    + rewrite E; exact IH.
Qed.

Lemma sum_squares_nonneg (v : list R) : (0 <= sum (map (fun x => x * x) v))%R.
Proof.
  induction v as [|x v IH]; simpl; [lra|]. pose proof (Rle_0_sqr x) as S.
  unfold Rsqr in S; lra.
Qed.

Lemma norm_nonneg (v : list R) : (0 <= norm v)%R.
Proof. unfold norm; apply sqrt_pos. Qed.


Lemma sum_norm_nonneg (l : list (list R)) : (0 <= sum (map norm l))%R.
Proof.
  induction l as [|v l IH]; simpl; [lra|]. pose proof (norm_nonneg v); lra.
Qed.







(** ** [apply_to_raybundle] *)

Lemma squeeze_batch {A : Type} (l : list A) :
  length l <> 1 -> squeeze l = batch l.
Proof. destruct l as [|a [|b l]]; simpl; [reflexivity | lia | reflexivity]. Qed.

(** The rotation block of a 3x4 transform times a 3-vector held as a
    one-column matrix. *)
Lemma matmul_rotation (m : Matrix) (v : list R) :
  shape34 m -> length v = 3 ->
  matmul (rotation m) (map (fun x => [x]) v)
  = Ok (map (fun y => [y]) (matvec (rotation m) v)).
Proof.
  intros [L F] Lv.
  destruct m as [|r0 [|r1 [|r2 [|? ?]]]]; try discriminate.
  inversion F as [|? ? H0 F1]; subst. inversion F1 as [|? ? H1 F2]; subst.
  inversion F2 as [|? ? H2 _]; subst.
  destruct r0 as [|? [|? [|? [|? [|? ?]]]]]; try discriminate.
  destruct r1 as [|? [|? [|? [|? [|? ?]]]]]; try discriminate.
  destruct r2 as [|? [|? [|? [|? [|? ?]]]]]; try discriminate.
  destruct v as [|? [|? [|? [|? ?]]]]; try discriminate.
  reflexivity.
Qed.

Lemma bmm_rotations (corr : list Matrix) (ds : list (list R)) :
  Forall shape34 corr -> Forall (fun v => length v = 3) ds ->
  length corr = length ds ->
  bmm (map rotation corr) (map (map (fun x => [x])) ds)
  = Ok (zip_with (fun m v => map (fun y => [y]) (matvec (rotation m) v)) corr ds).
Proof.
  intros S D L. unfold bmm. rewrite !length_map, L, Nat.eqb_refl.
  revert ds D L; induction S as [|m corr Hm _ IH]; intros [|v ds] D L;
    simpl in *; try discriminate; [reflexivity|].
  inversion D; subst. rewrite matmul_rotation by assumption. simpl.
  rewrite IH by (try assumption; congruence). reflexivity.
Qed.

Lemma concat_columns (corr : list Matrix) (ds : list (list R)) :
  map (@concat R)
    (zip_with (fun m v => map (fun y => [y]) (matvec (rotation m) v)) corr ds)
  = zip_with (fun m v => matvec (rotation m) v) corr ds.
Proof.
  revert ds; induction corr as [|m corr IH]; intros [|v ds]; simpl;
    try reflexivity.
  f_equal; [|apply IH].
  induction (matvec (rotation m) v) as [|y l IHl]; simpl; [reflexivity|].
  f_equal; exact IHl.
Qed.

(** C9 (the code departs from the claim). A bundle that holds a single
    ray: [squeeze()] removes the batch axis of its camera indices together
    with the trailing one, and in the shared mode [forward] raises
    [IndexError] at [indices.shape[0]]; origins and directions stay as they
    were instead of being corrected. *)
Theorem apply_to_raybundle_single_ray_raises (ops : PoseOps) :
  mode (config two_cameras_shared_plain) = shared_SO3xR3
  /\ constructed two_cameras_shared_plain
  /\ in_range two_cameras_shared_plain (camera_indices one_ray)
  /\ squeeze (camera_indices one_ray) = single 0%Z
  /\ apply_to_raybundle two_cameras_shared_plain one_ray
     = (Raise IndexError, two_cameras_shared_plain, one_ray).
Proof.
  split; [reflexivity|].
  split; [split; [eexists; split; reflexivity | reflexivity]|].
  split; [repeat constructor; simpl; lia|].
  split; reflexivity.
Qed.

(** For a bundle of any other size the claim holds: in mode [off] the
    bundle is handed back untouched; otherwise, for a well-shaped bundle with
    in-range camera indices, the new origins are the old ones plus the
    translation columns of the corrections and the new directions are the
    rotation blocks applied to the old ones. *)
Lemma apply_to_raybundle_batch (ops : PoseOps) (self : CameraOptimizer)
    (os ds : list (list R)) (cis : list Z) :
  (mode (config self) = off ->
   forall raybundle, apply_to_raybundle self raybundle = (Ok tt, self, raybundle))
  /\ (mode (config self) <> off ->
      constructed self -> in_range self cis ->
      length cis <> 1 -> length os = length cis -> length ds = length cis ->
      Forall (fun v => length v = 3) ds ->
      exists corr self',
        forward self (batch cis) = (Ok corr, self')
        /\ apply_to_raybundle self (mkRayBundle os (batch ds) cis)
           = (Ok tt, self',
              mkRayBundle (zip_with (zip_with Rplus) os (map translation corr))
                (batch (zip_with (fun m v => matvec (rotation m) v) corr ds))
                cis)).
Proof.
  split.
  - intros M raybundle; unfold apply_to_raybundle.
    rewrite (proj2 (Mode_eqb_off _) M); reflexivity.
  - intros M C Hin N Lo Ld D.
    destruct (forward_constructed_total self cis C Hin (or_introl M))
      as (corr & self' & F & L & S).
    exists corr, self'. split; [exact F|].
    unfold apply_to_raybundle. rewrite Mode_eqb_not_off by assumption.
    simpl. rewrite squeeze_batch by assumption. rewrite F.
    unfold add_rows. rewrite length_map, Lo, L, Nat.eqb_refl.
    simpl. rewrite bmm_rotations by (try assumption; congruence).
    rewrite concat_columns, squeeze_batch; [reflexivity|].
    rewrite zip_with_length; congruence.
Qed.

(** * Further properties *)

(** ** [forward] in closed form *)

Lemma zip_with_map {A B C D : Type} (f : B -> C -> D) (g : A -> B) (h : A -> C)
    (l : list A) :
  zip_with f (map g l) (map h l) = map (fun a => f (g a) (h a)) l.
Proof. induction l as [|a l IH]; simpl; [reflexivity | f_equal; exact IH]. Qed.

Lemma repeat_map_const {A B : Type} (b : B) (l : list A) :
  repeat b (length l) = map (fun _ => b) l.
Proof. induction l as [|a l IH]; simpl; [reflexivity | f_equal; exact IH]. Qed.

Section ClosedForm.

Context {ops : PoseOps}.

Lemma learned_delta_rows (self : CameraOptimizer) (indices : list Z) :
  constructed self -> in_range self indices -> mode (config self) <> off ->
  learned_delta self (batch indices) = Ok [map (lie_row self) indices].
Proof.
  intros [Hp _] Hin M; unfold learned_delta, get_pose_adjustment, lie_input.
  destruct (mode (config self)) eqn:Md; [congruence | | | ];
    destruct Hp as [p [Hp Hl]]; rewrite Hp; simpl.
  - rewrite (gather_in_range _ _ []) by (eapply in_range_rows; eauto).
    simpl. unfold exp_map_SO3xR3. rewrite map_map.
    do 2 f_equal. apply map_ext; intros i. unfold lie_row; rewrite Md, Hp.
    reflexivity.
  - rewrite (gather_in_range _ _ []) by (eapply in_range_rows; eauto).
    simpl. unfold exp_map_SE3. rewrite map_map.
    do 2 f_equal. apply map_ext; intros i. unfold lie_row; rewrite Md, Hp.
    reflexivity.
  - destruct (data p) as [|row [|? ?]] eqn:Dp; try discriminate.
    simpl. rewrite tile_singleton, repeat_map_const.
    do 2 f_equal. apply map_ext; intros i. unfold lie_row; rewrite Md, Hp, Dp.
    reflexivity.
Qed.

(** On a constructed instance and in-range indices [forward] is a map over
    the batch, unless the instance is in mode [off] with a non-trainable
    set. *)
Lemma forward_closed_form (self : CameraOptimizer) (indices : list Z) :
  constructed self -> in_range self indices ->
  mode (config self) <> off \/ non_trainable_camera_indices self = None ->
  exists self',
    forward self (batch indices) = (Ok (map (correction_row self) indices), self').
Proof.
  intros C Hin H.
  assert (mode (config self) = off \/ mode (config self) <> off) as [M|M]
    by (destruct (mode (config self)); [left | right | right | right];
        congruence).
  - destruct H as [H|H]; [congruence|].
    exists self. rewrite forward_off_plain by assumption.
    rewrite repeat_map_const. do 2 f_equal. apply map_ext; intros i.
    unfold correction_row, masked, lie_row. rewrite H, M. reflexivity.
  - destruct (forward_constructed_batch self indices C Hin M)
      as (delta & self' & D & _ & _ & F).
    rewrite learned_delta_rows in D by assumption. inversion D; subst delta.
    exists self'. rewrite F. do 2 f_equal.
    unfold correction_row, masked.
    destruct (non_trainable_camera_indices self) as [t|].
    + unfold overwrite. rewrite zip_with_map. reflexivity.
    + reflexivity.
Qed.

End ClosedForm.

Lemma in_range_app (self : CameraOptimizer) (l1 l2 : list Z) :
  in_range self l1 -> in_range self l2 -> in_range self (l1 ++ l2).
Proof. intros H1 H2; apply Forall_app; split; assumption. Qed.

Lemma in_range_range (self : CameraOptimizer) :
  in_range self (range (num_cameras self)).
Proof.
  unfold in_range, range. apply Forall_map, Forall_forall. intros k Hk.
  apply in_seq in Hk. lia.
Qed.

(** X1. Batches concatenate: on a constructed instance (not in mode [off]
    with a non-trainable set) and in-range indices, [forward] on the batch
    [l1 ++ l2] returns the matrices for [l1] followed by those for [l2]. *)
Theorem forward_concatenates (ops : PoseOps) (self : CameraOptimizer)
    (l1 l2 : list Z) :
  constructed self -> in_range self l1 -> in_range self l2 ->
  mode (config self) <> off \/ non_trainable_camera_indices self = None ->
  exists out1 out2 s1 s2 s,
    forward self (batch l1) = (Ok out1, s1)
    /\ forward self (batch l2) = (Ok out2, s2)
    /\ forward self (batch (l1 ++ l2)) = (Ok (out1 ++ out2), s).
Proof.
  intros C H1 H2 M.
  destruct (forward_closed_form self l1 C H1 M) as [s1 F1].
  destruct (forward_closed_form self l2 C H2 M) as [s2 F2].
  destruct (forward_closed_form self (l1 ++ l2) C (in_range_app _ _ _ H1 H2) M)
    as [s F].
  rewrite map_app in F. eauto 8.
Qed.

Lemma forward_concatenates_witness :
  exists out1 out2 s1 s2 s,
    @forward spec_pose_ops three_cameras (batch [2; 1]%Z) = (Ok out1, s1)
    /\ @forward spec_pose_ops three_cameras (batch [0]%Z) = (Ok out2, s2)
    /\ @forward spec_pose_ops three_cameras (batch [2; 1; 0]%Z)
       = (Ok (out1 ++ out2), s).
Proof.
  apply (forward_concatenates spec_pose_ops three_cameras [2; 1]%Z [0]%Z).
  - exact three_cameras_constructed.
  - repeat constructor; simpl; lia.
  - repeat constructor; simpl; lia.
  - left; simpl; discriminate.
Defined.

(** X2. The snapshot agrees with single lookups: on a constructed
    instance with a non-negative number of cameras (not in mode [off] with a
    non-trainable set) [get_correction_matrices] returns one matrix per
    camera, and its entry [i] is the matrix [forward] returns for the batch
    that holds only [i]. *)
Theorem get_correction_matrices_entries (ops : PoseOps) (self : CameraOptimizer) :
  constructed self ->
  (0 <= num_cameras self)%Z ->
  mode (config self) <> off \/ non_trainable_camera_indices self = None ->
  exists out self',
    get_correction_matrices self = (Ok out, self')
    /\ length out = Z.to_nat (num_cameras self)
    /\ forall i, (0 <= i < num_cameras self)%Z ->
         exists m s,
           nth_error out (Z.to_nat i) = Some m
           /\ forward self (batch [i]) = (Ok [m], s).
Proof.
  intros C Hn M.
  destruct (forward_closed_form self (range (num_cameras self)) C
              (in_range_range self) M) as [self' F].
  exists (map (correction_row self) (range (num_cameras self))), self'.
  split; [|split].
  - unfold get_correction_matrices.
    replace (num_cameras self <? 0)%Z with false
      by (symmetry; apply Z.ltb_ge; lia).
    exact F.
  - rewrite length_map, range_length; reflexivity.
  - intros i Hi.
    destruct (forward_closed_form self [i] C) as [s Fi];
      [constructor; [assumption | constructor] | assumption |].
    exists (correction_row self i), s. split; [|exact Fi].
    rewrite nth_error_map.
    assert (E : nth_error (range (num_cameras self)) (Z.to_nat i) = Some i).
    { rewrite (nth_error_nth' _ 0%Z) by (rewrite range_length; lia).
      rewrite range_nth by assumption. reflexivity. }
    rewrite E; reflexivity.
Qed.

Lemma get_correction_matrices_entries_witness :
  exists out self' m s,
    @get_correction_matrices spec_pose_ops three_cameras = (Ok out, self')
    /\ length out = 3
    /\ nth_error out 2 = Some m
    /\ @forward spec_pose_ops three_cameras (batch [2]%Z) = (Ok [m], s).
Proof.
  destruct (get_correction_matrices_entries spec_pose_ops three_cameras)
    as (out & self' & G & L & P).
  - exact three_cameras_constructed.
  - simpl; lia.
  - left; simpl; discriminate.
  - destruct (P 2%Z) as (m & s & N & F); [simpl; lia|].
    exists out, self', m, s. repeat split; assumption.
Defined.

(** ** Index bounds *)

Lemma getitem_wrap {A : Type} (t : list A) (i : Z) :
  (- Z.of_nat (length t) <= i < Z.of_nat (length t))%Z ->
  getitem t i = getitem t (i mod Z.of_nat (length t)).
Proof.
  intros Hi. unfold getitem. f_equal.
  destruct (Z_lt_le_dec i 0) as [Hneg|Hpos].
  - assert (E : (i mod Z.of_nat (length t) = i + Z.of_nat (length t))%Z).
    { symmetry; apply (Z.mod_unique _ _ (-1)); lia. }
    rewrite E. rewrite (wrap_index_in_range _ (i + _)) by lia.
    unfold wrap_index.
    replace (0 <=? i)%Z with false by (symmetry; apply Z.leb_gt; lia).
    replace (- Z.of_nat (length t) <=? i)%Z with true
      by (symmetry; apply Z.leb_le; lia).
    replace (i <? 0)%Z with true by (symmetry; apply Z.ltb_lt; lia).
    reflexivity.
  - rewrite Z.mod_small by lia. reflexivity.
Qed.

Lemma gather_wrap {A : Type} (t : list A) (indices : list Z) :
  Forall (fun i => (- Z.of_nat (length t) <= i < Z.of_nat (length t))%Z) indices ->
  gather t indices
  = gather t (map (fun i => (i mod Z.of_nat (length t))%Z) indices).
Proof.
  unfold gather. induction 1 as [|i indices Hi _ IH]; simpl; [reflexivity|].
  rewrite <- getitem_wrap by assumption. rewrite IH. reflexivity.
Qed.

Lemma getitem_raises {A : Type} (t : list A) (i : Z) (e : Exception) :
  getitem t i = Raise e -> e = IndexError.
Proof.
  unfold getitem. destruct (wrap_index (length t) i) as [k|]; [|congruence].
  destruct (nth_error t k); congruence.
Qed.

Lemma getitem_out_of_range {A : Type} (t : list A) (i : Z) :
  (i < - Z.of_nat (length t) \/ Z.of_nat (length t) <= i)%Z ->
  getitem t i = Raise IndexError.
Proof.
  intros Hi. unfold getitem, wrap_index.
  destruct ((0 <=? i) && (i <? Z.of_nat (length t)))%Z eqn:E1.
  - apply andb_prop in E1 as [E1 E2].
    apply Z.leb_le in E1. apply Z.ltb_lt in E2. lia.
  - destruct ((- Z.of_nat (length t) <=? i) && (i <? 0))%Z eqn:E2;
      [|reflexivity].
    apply andb_prop in E2 as [E2 E3].
    apply Z.leb_le in E2. apply Z.ltb_lt in E3. lia.
Qed.

Lemma gather_out_of_range {A : Type} (t : list A) (indices : list Z) (i : Z) :
  In i indices ->
  (i < - Z.of_nat (length t) \/ Z.of_nat (length t) <= i)%Z ->
  gather t indices = Raise IndexError.
Proof.
  intros Hin Hi. unfold gather.
  induction indices as [|j indices IH]; [contradiction|]. simpl.
  destruct (getitem t j) as [a|e] eqn:G.
  - destruct Hin as [->|Hin].
    + rewrite getitem_out_of_range in G by assumption. discriminate.
    + simpl. rewrite IH by assumption. reflexivity.
  - apply getitem_raises in G; subst. reflexivity.
Qed.

Section IndexBounds.

Context {ops : PoseOps}.

(** [forward] sees its indices only through the rows and mask bits they
    select and through their number. *)
Lemma forward_indices_ext (self : CameraOptimizer) (l l' : list Z) :
  length l = length l' ->
  (mode (config self) = SO3xR3 \/ mode (config self) = SE3 ->
   forall p, pose_adjustment self = Some p ->
             gather (data p) l = gather (data p) l') ->
  (forall f, non_trainable_camera_filter self = Some f ->
             gather (data f) l = gather (data f) l') ->
  forward self (batch l) = forward self (batch l').
Proof.
  intros L Hp Hf.
  assert (D : learned_delta self (batch l) = learned_delta self (batch l')).
  { unfold learned_delta, get_pose_adjustment, lie_input.
    destruct (mode (config self)); [reflexivity | | | ];
      destruct (pose_adjustment self) as [p|]; try reflexivity; simpl.
    - rewrite (Hp (or_introl eq_refl) p eq_refl); reflexivity.
    - rewrite (Hp (or_intror eq_refl) p eq_refl); reflexivity.
    - rewrite L; reflexivity. }
  unfold forward. rewrite D.
  destruct (learned_delta self (batch l')) as [outputs|e]; [|reflexivity].
  assert (E : detach_non_trainable self (batch l) outputs
              = detach_non_trainable self (batch l') outputs).
  { unfold detach_non_trainable.
    destruct (non_trainable_camera_indices self) as [t|]; [|reflexivity].
    destruct (pose_adjustment self) as [p|]; [|reflexivity].
    destruct (String.eqb (dev t) (dev p)); simpl;
      destruct (non_trainable_camera_filter self) as [f|]; try reflexivity;
      specialize (Hf f eq_refl);
      destruct (String.eqb (dev f) (dev p)); simpl; rewrite Hf; reflexivity. }
  rewrite E.
  destruct (detach_non_trainable self (batch l') outputs) as [r s].
  destruct r as [[|o rest]|e]; simpl; rewrite ?L; reflexivity.
Qed.

End IndexBounds.

(** X3. Negative indices count from the end: on a constructed instance
    [forward] accepts every index of [-num_cameras, num_cameras) and treats
    [i] like [i mod num_cameras], so [-1] addresses the last camera, its
    parameter row and its mask bit alike. *)
Theorem forward_negative_indices (ops : PoseOps) (self : CameraOptimizer)
    (indices : list Z) :
  constructed self ->
  Forall (fun i => (- num_cameras self <= i < num_cameras self)%Z) indices ->
  forward self (batch indices)
  = forward self (batch (map (fun i => (i mod num_cameras self)%Z) indices)).
Proof.
  intros [Cp Cf] Hin.
  destruct indices as [|i0 rest]; [reflexivity|].
  assert (Hn : (0 < num_cameras self)%Z) by (inversion Hin; lia).
  apply forward_indices_ext.
  - rewrite length_map; reflexivity.
  - intros M p Hp.
    assert (L : Z.of_nat (length (data p)) = num_cameras self).
    { destruct M as [M|M]; rewrite M in Cp; destruct Cp as (p' & Hp' & Hl);
        rewrite Hp in Hp'; inversion Hp'; subst p'; rewrite Hl; lia. }
    rewrite <- L in *. apply gather_wrap; assumption.
  - intros f Hf.
    assert (L : Z.of_nat (length (data f)) = num_cameras self).
    { destruct (non_trainable_camera_indices self) as [t|].
      - destruct Cf as (f' & Hf' & Hd). rewrite Hf in Hf'; inversion Hf'; subst f'.
        rewrite Hd, length_map, range_length; lia.
      - rewrite Hf in Cf; discriminate. }
    rewrite <- L in *. apply gather_wrap; assumption.
Qed.

Lemma forward_negative_indices_witness :
  @forward spec_pose_ops three_cameras (batch [-1; -3; 1]%Z)
  = @forward spec_pose_ops three_cameras (batch [2; 0; 1]%Z).
Proof.
  apply (forward_negative_indices spec_pose_ops three_cameras [-1; -3; 1]%Z).
  - exact three_cameras_constructed.
  - repeat constructor; simpl; lia.
Defined.

Lemma forward_index_error (ops : PoseOps) (self : CameraOptimizer)
    (indices : list Z) (i : Z) :
  constructed self ->
  mode (config self) = SO3xR3 \/ mode (config self) = SE3 ->
  In i indices ->
  (i < - num_cameras self \/ num_cameras self <= i)%Z ->
  forward self (batch indices) = (Raise IndexError, self).
Proof.
  intros [Cp _] M Hin Hi.
  assert (exists p, pose_adjustment self = Some p
                    /\ length (data p) = Z.to_nat (num_cameras self))
    as (p & Hp & Hl)
    by (destruct M as [M|M]; rewrite M in Cp; exact Cp).
  assert (G : gather (data p) indices = Raise IndexError).
  { apply (gather_out_of_range _ _ i Hin). rewrite Hl. lia. }
  unfold forward, learned_delta, get_pose_adjustment, lie_input.
  destruct M as [M|M]; rewrite M, Hp; simpl; rewrite G; reflexivity.
Qed.

(** X4. In the modes [SO3xR3] and [SE3] a batch that holds an index
    outside [-num_cameras, num_cameras) makes [forward] raise [IndexError],
    wherever the index stands in the batch, and the instance is left as it
    was; [get_correction_matrices] never meets this error. *)
Theorem forward_out_of_range (ops : PoseOps) (self : CameraOptimizer)
    (indices : list Z) (i : Z) :
  constructed self ->
  mode (config self) = SO3xR3 \/ mode (config self) = SE3 ->
  In i indices ->
  (i < - num_cameras self \/ num_cameras self <= i)%Z ->
  forward self (batch indices) = (Raise IndexError, self)
  /\ fst (get_correction_matrices self) <> Raise IndexError.
Proof.
  intros C M Hin Hi. split; [apply (forward_index_error ops self indices i);
                             assumption|].
  unfold get_correction_matrices.
  destruct (num_cameras self <? 0)%Z; [simpl; discriminate|].
  destruct (forward_closed_form self (range (num_cameras self)) C
              (in_range_range self)) as [s F].
  - left. destruct M as [M|M]; rewrite M; discriminate.
  - rewrite F. simpl; discriminate.
Qed.

Lemma forward_out_of_range_witness :
  @forward spec_pose_ops three_cameras (batch [0; 3]%Z)
  = (Raise IndexError, three_cameras)
  /\ @forward spec_pose_ops three_cameras (batch [-4; 1]%Z)
     = (Raise IndexError, three_cameras).
Proof.
  split.
  - apply (forward_out_of_range spec_pose_ops three_cameras [0; 3]%Z 3%Z).
    + exact three_cameras_constructed.
    + left; reflexivity.
    + simpl; tauto.
    + simpl; lia.
  - apply (forward_out_of_range spec_pose_ops three_cameras [-4; 1]%Z (-4)%Z).
    + exact three_cameras_constructed.
    + left; reflexivity.
    + simpl; tauto.
    + simpl; lia.
Defined.

(** X5. Without a non-trainable set the modes [off] and [shared_SO3xR3]
    never inspect the index values: two batches of the same length get the
    same answer, whatever integers they hold. *)
Theorem forward_ignores_index_values (ops : PoseOps) (self : CameraOptimizer)
    (l l' : list Z) :
  mode (config self) = off \/ mode (config self) = shared_SO3xR3 ->
  non_trainable_camera_indices self = None ->
  length l = length l' ->
  forward self (batch l) = forward self (batch l').
Proof.
  intros M E L. unfold forward, learned_delta, get_pose_adjustment.
  destruct M as [M|M]; rewrite M.
  - rewrite !detach_none by assumption. simpl. rewrite L; reflexivity.
  - destruct (pose_adjustment self) as [p|]; [|reflexivity]. simpl.
    rewrite !detach_none by assumption. rewrite L; reflexivity.
Qed.

Lemma forward_ignores_index_values_witness :
  @forward spec_pose_ops two_cameras_shared_plain (batch [0; 1]%Z)
  = @forward spec_pose_ops two_cameras_shared_plain (batch [7; -40]%Z).
Proof.
  apply (forward_ignores_index_values spec_pose_ops two_cameras_shared_plain).
  - right; reflexivity.
  - reflexivity.
  - reflexivity.
Defined.

(** ** The cached tensors and their device *)

Section DeviceSync.

Context {ops : PoseOps}.

Lemma detach_fst (self : CameraOptimizer) (indices : squeezed Z)
    (outputs : list (list Matrix)) :
  fst (detach_non_trainable self indices outputs)
  = match non_trainable_camera_indices self with
    | None => Ok outputs
    | Some _ =>
        match pose_adjustment self, non_trainable_camera_filter self with
        | Some _, Some f =>
            mask <- getitem_squeezed (data f) indices ;;
            match outputs with
            | [] => Raise IndexError
            | o :: rest => o' <- setitem_mask o mask eye34 ;; Ok (o' :: rest)
            end
        | _, _ => Raise AttributeError
        end
    end.
Proof.
  unfold detach_non_trainable.
  destruct (non_trainable_camera_indices self) as [t|]; [|reflexivity].
  destruct (pose_adjustment self) as [p|]; [|reflexivity].
  destruct (String.eqb (dev t) (dev p)); simpl;
    destruct (non_trainable_camera_filter self) as [f|]; try reflexivity;
    destruct (String.eqb (dev f) (dev p)); reflexivity.
Qed.

Lemma forward_fst (self : CameraOptimizer) (indices : squeezed Z) :
  fst (forward self indices)
  = match learned_delta self indices with
    | Raise e => Raise e
    | Ok outputs =>
        outputs <- fst (detach_non_trainable self indices outputs) ;;
        match outputs with
        | [] => n <- shape0 indices ;; Ok (tile n [eye34])
        | _ => reduce multiply outputs
        end
    end.
Proof.
  unfold forward. destruct (learned_delta self indices) as [outputs|e];
    [|reflexivity].
  destruct (detach_non_trainable self indices outputs); reflexivity.
Qed.

(** The answer of [forward] depends on the configuration, the parameters
    and the data of the two cached tensors, not on where they live. *)
Lemma forward_fst_ext (s1 s2 : CameraOptimizer) (indices : squeezed Z) :
  config s1 = config s2 ->
  pose_adjustment s1 = pose_adjustment s2 ->
  option_map data (non_trainable_camera_indices s1)
    = option_map data (non_trainable_camera_indices s2) ->
  option_map data (non_trainable_camera_filter s1)
    = option_map data (non_trainable_camera_filter s2) ->
  fst (forward s1 indices) = fst (forward s2 indices).
Proof.
  intros Ec Ep Ei Ef. rewrite !forward_fst.
  assert (D : learned_delta s1 indices = learned_delta s2 indices)
    by (unfold learned_delta, get_pose_adjustment; rewrite Ec, Ep; reflexivity).
  rewrite D. destruct (learned_delta s2 indices) as [outputs|e]; [|reflexivity].
  rewrite !detach_fst, Ep.
  destruct (non_trainable_camera_indices s1), (non_trainable_camera_indices s2);
    try discriminate; [|reflexivity].
  destruct (pose_adjustment s2); [|reflexivity].
  destruct (non_trainable_camera_filter s1) as [f1|],
           (non_trainable_camera_filter s2) as [f2|];
    try discriminate; [|reflexivity].
  simpl in Ef. inversion Ef as [E]. rewrite E. reflexivity.
Qed.

Lemma detach_snd_stable (self : CameraOptimizer) (i1 i2 : squeezed Z)
    (o1 o2 : list (list Matrix)) :
  snd (detach_non_trainable (snd (detach_non_trainable self i1 o1)) i2 o2)
  = snd (detach_non_trainable self i1 o1).
Proof.
  unfold detach_non_trainable.
  destruct (non_trainable_camera_indices self) as [t|] eqn:E1;
    [|simpl; rewrite E1; reflexivity].
  destruct (pose_adjustment self) as [p|] eqn:E2;
    [|simpl; rewrite E1, E2; reflexivity].
  destruct (String.eqb (dev t) (dev p)) eqn:Q1; simpl;
    destruct (non_trainable_camera_filter self) as [f|] eqn:E3; simpl;
    rewrite ?E1, ?E2, ?E3; simpl; rewrite ?Q1, ?String.eqb_refl; simpl;
    rewrite ?E3; try reflexivity;
    destruct (String.eqb (dev f) (dev p)) eqn:Q2; simpl;
    rewrite ?E1, ?E2, ?E3; simpl; rewrite ?Q1, ?Q2, ?String.eqb_refl; simpl;
    rewrite ?E3, ?Q2, ?String.eqb_refl; reflexivity.
Qed.

End DeviceSync.

(** X6. The device of the two cached tensors never shows in an answer,
    and a call with the same indices after the first one leaves the instance
    as the first one left it: whatever [forward] was called with before, the
    next call answers as it would have on the original instance. *)
Theorem forward_device_sync (ops : PoseOps) (self : CameraOptimizer)
    (indices indices' : squeezed Z) :
  fst (forward (snd (forward self indices)) indices')
  = fst (forward self indices')
  /\ snd (forward (snd (forward self indices)) indices)
     = snd (forward self indices).
Proof.
  split.
  - destruct (forward_keeps self indices) as (Ec & _ & _ & Ep & _ & Ei & Ef).
    apply forward_fst_ext; assumption.
  - assert (D : learned_delta (snd (forward self indices)) indices
                = learned_delta self indices).
    { destruct (forward_keeps self indices) as (Ec & _ & _ & Ep & _).
      unfold learned_delta, get_pose_adjustment. rewrite Ec, Ep. reflexivity. }
    unfold forward at 1. rewrite D.
    unfold forward.
    destruct (learned_delta self indices) as [outputs|e] eqn:L.
    + pose proof (detach_snd_stable self indices indices outputs outputs) as S.
      destruct (detach_non_trainable self indices outputs) as [r s] eqn:D1.
      simpl in *.
      destruct (detach_non_trainable s indices outputs) as [r' s'].
      simpl in *. exact S.
    + simpl. reflexivity.
Qed.

(** ** Parameter groups, metrics and the regularizer *)

Lemma dict_get_set_other {V : Type} (d : dict V) (k k' : string) (v : V) :
  k <> k' -> dict_get (dict_set d k v) k' = dict_get d k'.
Proof.
  intros N. induction d as [|[k0 v0] d IH]; simpl.
  - destruct (String.eqb k k') eqn:E; [|reflexivity].
    apply String.eqb_eq in E; contradiction.
  - destruct (String.eqb k0 k) eqn:E0; simpl.
    + apply String.eqb_eq in E0; subst k0.
      destruct (String.eqb k k') eqn:E; [|reflexivity].
      apply String.eqb_eq in E; contradiction.
    + destruct (String.eqb k0 k'); [reflexivity | exact IH].
Qed.

Lemma dict_set_twice {V : Type} (d : dict V) (k : string) (v w : V) :
  dict_set (dict_set d k v) k w = dict_set d k w.
Proof.
  induction d as [|[k0 v0] d IH]; simpl.
  - rewrite String.eqb_refl; reflexivity.
  - destruct (String.eqb k0 k) eqn:E; simpl.
    + rewrite String.eqb_refl; reflexivity.
    + rewrite E, IH; reflexivity.
Qed.

(** X7. The consistency assertions of [get_param_groups] hold for every
    instance the constructor returns, coerced to [off] or not: in mode [off]
    the registry is handed back as it was, otherwise the group [name] holds
    exactly the one parameter tensor, and no other group is touched. *)
Theorem get_param_groups_after_init (cfg : CameraOptimizerConfig) (n : Z)
    (d : Device) (nti : option (Tensor (list Z))) (sfx : option string)
    (self : CameraOptimizer)
    (param_groups : dict (list (Tensor (list (list R))))) (name : string) :
  __init__ cfg n d nti sfx = Ok self ->
  (mode (config self) = off ->
   get_param_groups self param_groups name = (Ok tt, param_groups))
  /\ (mode (config self) <> off ->
      exists p groups,
        pose_adjustment self = Some p
        /\ get_param_groups self param_groups name = (Ok tt, groups)
        /\ dict_get groups name = Some [p]
        /\ forall other, name <> other ->
             dict_get groups other = dict_get param_groups other).
Proof.
  intros I. pose proof (init_constructed _ _ _ _ _ _ I) as [Cp _]. split.
  - intros M. rewrite M in Cp. unfold get_param_groups, parameters.
    rewrite M, Cp. reflexivity.
  - intros M.
    assert (exists p, pose_adjustment self = Some p) as [p Hp]
      by (destruct (mode (config self)); [congruence | | | ];
          destruct Cp as [p [Hp _]]; eauto).
    exists p, (dict_set param_groups name [p]). split; [exact Hp|].
    split; [|split].
    + unfold get_param_groups, parameters.
      rewrite Mode_eqb_not_off by assumption. rewrite Hp. reflexivity.
    + apply dict_get_set.
    + intros other N. apply dict_get_set_other; assumption.
Qed.

Lemma get_param_groups_after_init_witness :
  exists self,
    __init__ (mkConfig SE3 (/ 100) (/ 1000) (-1)) 3 "cpu" None None = Ok self
    /\ get_param_groups self [] "camera_opt" = (Ok tt, []).
Proof.
  assert (I : exists self,
             __init__ (mkConfig SE3 (/ 100) (/ 1000) (-1)) 3 "cpu" None None
             = Ok self /\ mode (config self) = off).
  { rewrite init_negative_penalty by (simpl; lra).
    eexists; split; reflexivity. }
  destruct I as (self & I & M).
  exists self. split; [exact I|].
  exact (proj1 (get_param_groups_after_init _ _ _ _ _ self [] "camera_opt" I) M).
Defined.

Lemma sum_squares_zero (v : list R) :
  sum (map (fun x => x * x)%R v) = 0%R <-> Forall (eq 0%R) v.
Proof.
  induction v as [|x v IH]; simpl.
  - split; [constructor | reflexivity].
  - pose proof (sum_squares_nonneg v) as N.
    pose proof (Rle_0_sqr x) as S; unfold Rsqr in S. split.
    + intros H. assert (x * x = 0 /\ sum (map (fun x => x * x) v) = 0)%R
        as [Hx Hv] by lra.
      constructor; [symmetry; nra | apply IH; exact Hv].
    + intros H. inversion H as [|? ? Hx Hv]; subst.
      apply IH in Hv. rewrite Hv. ring.
Qed.

Lemma norm_zero (v : list R) : norm v = 0%R <-> Forall (eq 0%R) v.
Proof.
  unfold norm. rewrite <- sum_squares_zero. split.
  - intros H. apply sqrt_eq_0; [apply sum_squares_nonneg | exact H].
  - intros H; rewrite H; apply sqrt_0.
Qed.

Lemma halves_zero (rows : list (list R)) :
  Forall (eq 0%R) (concat (map (firstn 3) rows))
  /\ Forall (eq 0%R) (concat (map (skipn 3) rows))
  <-> Forall (Forall (eq 0%R)) rows.
Proof.
  rewrite !Forall_concat, !Forall_map. split.
  - intros [H1 H2]. rewrite Forall_forall in *. intros row Hr.
    rewrite <- (firstn_skipn 3 row). apply Forall_app; split; auto.
  - intros H. split; eapply Forall_impl; try exact H; intros row Hr; simpl.
    + rewrite <- (firstn_skipn 3 row) in Hr. apply Forall_app in Hr; tauto.
    + rewrite <- (firstn_skipn 3 row) in Hr. apply Forall_app in Hr; tauto.
Qed.




Lemma sum_norm_zero (l : list (list R)) :
  sum (map norm l) = 0%R <-> Forall (Forall (eq 0%R)) l.
Proof.
  induction l as [|v l IH]; simpl.
  - split; [constructor | reflexivity].
  - pose proof (norm_nonneg v) as Nv. pose proof (sum_norm_nonneg l) as Nl.
    split.
    + intros H. assert (norm v = 0 /\ sum (map norm l) = 0)%R as [Hv Hl] by lra.
      constructor; [apply norm_zero; exact Hv | apply IH; exact Hl].
    + intros H. inversion H as [|? ? Hv Hl]; subst.
      apply norm_zero in Hv. apply IH in Hl. rewrite Hv, Hl. ring.
Qed.


Lemma rows_zero_halves (rows : list (list R)) :
  Forall (Forall (eq 0%R)) (map (firstn 3) rows)
  /\ Forall (Forall (eq 0%R)) (map (skipn 3) rows)
  <-> Forall (Forall (eq 0%R)) rows.
Proof.
  rewrite !Forall_map. split.
  - intros [H1 H2]. rewrite Forall_forall in *. intros row Hr.
    rewrite <- (firstn_skipn 3 row). apply Forall_app; split; auto.
  - intros H. split; eapply Forall_impl; try exact H; intros row Hr; simpl.
    + rewrite <- (firstn_skipn 3 row) in Hr. apply Forall_app in Hr; tauto.
    + rewrite <- (firstn_skipn 3 row) in Hr. apply Forall_app in Hr; tauto.
Qed.



(** X10. A new instance reports nothing but zeros: for an instance the
    constructor returns in a mode other than [off], with at least one camera
    in the per-camera modes, the term [get_loss_dict] stores is 0 and the
    two metrics [get_metrics_dict] stores are 0. *)
Theorem fresh_instance_reports_zero (cfg : CameraOptimizerConfig) (n : Z)
    (d : Device) (nti : option (Tensor (list Z))) (sfx : option string)
    (self : CameraOptimizer) :
  __init__ cfg n d nti sfx = Ok self ->
  mode (config self) <> off ->
  mode (config self) = shared_SO3xR3 \/ (1 <= n)%Z ->
  exists v t r,
    get_loss_dict self []
    = (Ok tt, [(("camera_opt_regularizer" ++ suffix self)%string, v)])
    /\ get_metrics_dict self []
       = (Ok tt, [(("camera_opt_translation" ++ suffix self)%string, t);
                  (("camera_opt_rotation" ++ suffix self)%string, r)])
    /\ v = 0%R /\ t = 0%R /\ r = 0%R.
Proof.
  intros I M _.
  pose proof (init_constructed _ _ _ _ _ _ I) as [Cp _].
  pose proof (init_zero_parameters _ _ _ _ _ _ I) as Z.
  assert (exists p, pose_adjustment self = Some p) as [p Hp]
    by (destruct (mode (config self)); [congruence | | | ];
        destruct Cp as [p [Hp _]]; eauto).
  unfold zero_parameters in Z; rewrite Hp in Z.
  assert (A : Forall (Forall (eq 0%R)) (data p)).
  { eapply Forall_impl; [|exact Z]. intros row ->. repeat constructor. }
  exists (regularizer self (data p)),
         (norm (concat (map (firstn 3) (data p)))),
         (norm (concat (map (skipn 3) (data p)))).
  split; [|split; [|split; [|split]]].
  - unfold get_loss_dict, get_pose_adjustment.
    rewrite Mode_eqb_not_off by assumption. rewrite Hp. reflexivity.
  - unfold get_metrics_dict, get_pose_adjustment.
    rewrite Mode_eqb_not_off by assumption. rewrite Hp. reflexivity.
  - unfold regularizer, mean.
    apply rows_zero_halves in A as [A1 A2].
    apply sum_norm_zero in A1, A2. rewrite A1, A2.
    unfold Rdiv. ring.
  - apply norm_zero. apply halves_zero in A. tauto.
  - apply norm_zero. apply halves_zero in A. tauto.
Qed.

Lemma fresh_instance_reports_zero_witness :
  exists self v,
    __init__ (mkConfig shared_SO3xR3 (/ 100) (/ 1000) 1) 4 "cpu" None
      (Some "_t") = Ok self
    /\ get_loss_dict self [] = (Ok tt, [("camera_opt_regularizer_t", v)])
    /\ v = 0%R.
Proof.
  assert (I : exists self,
             __init__ (mkConfig shared_SO3xR3 (/ 100) (/ 1000) 1) 4 "cpu" None
               (Some "_t") = Ok self
             /\ mode (config self) = shared_SO3xR3 /\ suffix self = "_t").
  { rewrite init_nonnegative_penalty by (simpl; lra).
    eexists; split; [reflexivity|]. split; reflexivity. }
  destruct I as (self & I & M & S).
  destruct (fresh_instance_reports_zero _ _ _ _ _ self I)
    as (v & t & r & G & _ & V & _);
    [rewrite M; discriminate | left; exact M |].
  exists self, v. split; [exact I|]. rewrite S in G. split; [exact G | exact V].
Defined.

(** X11. [get_loss_dict] writes one entry and nothing else: every other
    key of the loss dictionary reads as before, and a second call replaces
    the entry instead of adding to it, so calling twice is the same as
    calling once. *)
Theorem get_loss_dict_frame (self : CameraOptimizer) (loss_dict : dict R) :
  (forall k, k <> ("camera_opt_regularizer" ++ suffix self)%string ->
             dict_get (snd (get_loss_dict self loss_dict)) k
             = dict_get loss_dict k)
  /\ get_loss_dict self (snd (get_loss_dict self loss_dict))
     = get_loss_dict self loss_dict.
Proof.
  unfold get_loss_dict.
  destruct (Mode_eqb (mode (config self)) off); [split; reflexivity|].
  destruct (get_pose_adjustment self) as [p|e]; [|split; reflexivity].
  simpl. split.
  - intros k N. apply dict_get_set_other. intros E; subst; contradiction.
  - rewrite dict_set_twice. reflexivity.
Qed.

(** ** Camera poses *)

(** A 3x4 pose times a 3x4 transform completed by the row [0, 0, 0, 1] is
    the composition of the two rigid transforms. *)
Lemma matmul_homogeneous (c m : Matrix) :
  shape34 c -> shape34 m ->
  matmul c (m ++ [[0; 0; 0; 1]%R]) = Ok (compose c m).
Proof.
  intros [Lc Fc] [Lm Fm].
  destruct c as [|c0 [|c1 [|c2 [|? ?]]]]; try discriminate.
  destruct m as [|m0 [|m1 [|m2 [|? ?]]]]; try discriminate.
  repeat match goal with
         | H : Forall _ (_ :: _) |- _ =>
             let E := fresh "E" in
             let F := fresh "F" in
             apply Forall_cons_iff in H as [E F]
         end.
  repeat match goal with
         | H : length ?r = 4 |- _ =>
             destruct r as [|? [|? [|? [|? [|? ?]]]]]; try discriminate H;
             clear H
         end.
  unfold matmul. cbn [forallb length Nat.eqb app andb]. f_equal.
  unfold compose, mat_product, transform, rotation, translation, dot, sum,
    column, cols.
  cbn [map firstn nth seq length zip_with fold_right app].
  entrywise.
Qed.

Lemma compose_identity (c : Matrix) : shape34 c -> compose c eye34 = c.
Proof.
  intros [Lc Fc].
  destruct c as [|c0 [|c1 [|c2 [|? ?]]]]; try discriminate.
  repeat match goal with
         | H : Forall _ (_ :: _) |- _ =>
             let E := fresh "E" in
             let F := fresh "F" in
             apply Forall_cons_iff in H as [E F]
         end.
  repeat match goal with
         | H : length ?r = 4 |- _ =>
             destruct r as [|? [|? [|? [|? [|? ?]]]]]; try discriminate H;
             clear H
         end.
  rewrite eye34_entries.
  unfold compose, mat_product, transform, rotation, translation, dot, sum,
    column, cols.
  cbn [map firstn nth seq length zip_with fold_right app].
  entrywise.
Qed.

Section CameraPose.

Context {ops : PoseOps}.

Lemma correction_row_shape (self : CameraOptimizer) (i : Z) :
  shape34 (correction_row self i).
Proof.
  unfold correction_row, lie_row.
  destruct (masked self i); [apply eye34_shape|].
  destruct (mode (config self)), (pose_adjustment self);
    first [apply eye34_shape | apply exp_SO3xR3_shape | apply exp_SE3_shape].
Qed.

Lemma apply_to_camera_single (self : CameraOptimizer) (camera : Cameras)
    md (i : Z) (c : Matrix) :
  constructed self -> mode (config self) <> off ->
  metadata camera = Some md -> dict_get md "cam_idx" = Some i ->
  (0 <= i < num_cameras self)%Z ->
  camera_to_worlds camera = [c] -> shape34 c ->
  exists self',
    apply_to_camera self camera
    = (Ok tt, self',
       mkCameras [compose c (correction_row self i)] (metadata camera)
         (camera_device camera)).
Proof.
  intros C M Hmd Hi Hr Hc Sc.
  destruct (forward_closed_form self [i] C) as [self' F];
    [constructor; [assumption | constructor] | left; assumption |].
  exists self'. unfold apply_to_camera.
  rewrite Mode_eqb_not_off by assumption. rewrite Hmd, Hi, F, Hc.
  cbn [map bind cat_dim1 length Nat.eqb zip_with bmm mapM2].
  rewrite matmul_homogeneous by (try assumption; apply correction_row_shape).
  reflexivity.
Qed.

End CameraPose.

(** X12. [apply_to_camera] composes rigid transforms: for a constructed
    instance in a mode other than [off] and a camera that holds one 3x4 pose
    and names an in-range camera index, the new pose has the rotation
    (old rotation)(correction rotation) and the translation
    (old translation) + (old rotation)(correction translation). *)
Theorem apply_to_camera_composes (ops : PoseOps) (self : CameraOptimizer)
    (camera : Cameras) md (i : Z) (c : Matrix) :
  constructed self -> mode (config self) <> off ->
  metadata camera = Some md -> dict_get md "cam_idx" = Some i ->
  (0 <= i < num_cameras self)%Z ->
  camera_to_worlds camera = [c] -> shape34 c ->
  exists self' c' adj,
    apply_to_camera self camera
    = (Ok tt, self', mkCameras [c'] (metadata camera) (camera_device camera))
    /\ fst (forward self (batch [i])) = Ok [adj]
    /\ rotation c' = mat_product (rotation c) (rotation adj)
    /\ translation c'
       = zip_with Rplus (translation c) (matvec (rotation c) (translation adj)).
Proof.
  intros C M Hmd Hi Hr Hc Sc.
  destruct (apply_to_camera_single self camera md i c C M Hmd Hi Hr Hc Sc)
    as [self' A].
  destruct (forward_closed_form self [i] C) as [s F];
    [constructor; [assumption | constructor] | left; assumption |].
  exists self', (compose c (correction_row self i)), (correction_row self i).
  split; [exact A|]. split; [rewrite F; reflexivity|].
  pose proof (correction_row_shape self i) as [Lm Fm].
  destruct Sc as [Lc Fc].
  destruct c as [|c0 [|c1 [|c2 [|? ?]]]]; try discriminate.
  destruct (correction_row self i) as [|m0 [|m1 [|m2 [|? ?]]]]; try discriminate.
  repeat match goal with
         | H : Forall _ (_ :: _) |- _ =>
             let E := fresh "E" in
             let F := fresh "F" in
             apply Forall_cons_iff in H as [E F]
         end.
  repeat match goal with
         | H : length ?r = 4 |- _ =>
             destruct r as [|? [|? [|? [|? [|? ?]]]]]; try discriminate H;
             clear H
         end.
  split; reflexivity.
Qed.

Lemma apply_to_camera_composes_witness :
  exists self' c' adj,
    @apply_to_camera spec_pose_ops three_cameras (camera_numbered 0)
    = (Ok tt, self', mkCameras [c'] (Some [("cam_idx", 0%Z)]) "cpu")
    /\ fst (@forward spec_pose_ops three_cameras (batch [0%Z])) = Ok [adj]
    /\ rotation c' = mat_product (rotation eye34) (rotation adj).
Proof.
  destruct (apply_to_camera_composes spec_pose_ops three_cameras
              (camera_numbered 0) [("cam_idx", 0%Z)] 0%Z eye34)
    as (self' & c' & adj & A & F & Rc & _).
  - exact three_cameras_constructed.
  - simpl; discriminate.
  - reflexivity.
  - reflexivity.
  - simpl; lia.
  - reflexivity.
  - exact eye34_shape.
  - exists self', c', adj. repeat split; assumption.
Defined.

(** X13. A non-trainable camera keeps its pose: for a constructed
    instance in a mode other than [off], [apply_to_camera] on a camera whose
    index is in the non-trainable set succeeds and hands the camera back
    exactly as it was, whatever the parameters hold. *)
Theorem apply_to_camera_non_trainable (ops : PoseOps) (self : CameraOptimizer)
    (camera : Cameras) md (i : Z) (c : Matrix) :
  constructed self -> mode (config self) <> off ->
  metadata camera = Some md -> dict_get md "cam_idx" = Some i ->
  (0 <= i < num_cameras self)%Z ->
  camera_to_worlds camera = [c] -> shape34 c ->
  masked self i = true ->
  exists self', apply_to_camera self camera = (Ok tt, self', camera).
Proof.
  intros C M Hmd Hi Hr Hc Sc Hm.
  destruct (apply_to_camera_single self camera md i c C M Hmd Hi Hr Hc Sc)
    as [self' A].
  exists self'. rewrite A. unfold correction_row. rewrite Hm.
  rewrite compose_identity by assumption.
  destruct camera; simpl in *; subst; reflexivity.
Qed.

Lemma apply_to_camera_non_trainable_witness :
  exists self',
    @apply_to_camera spec_pose_ops three_cameras (camera_numbered 1)
    = (Ok tt, self', camera_numbered 1).
Proof.
  apply (apply_to_camera_non_trainable spec_pose_ops three_cameras
           (camera_numbered 1) [("cam_idx", 1%Z)] 1%Z eye34).
  - exact three_cameras_constructed.
  - simpl; discriminate.
  - reflexivity.
  - reflexivity.
  - simpl; lia.
  - reflexivity.
  - exact eye34_shape.
  - reflexivity.
Defined.

(** ** Ray bundles *)

Lemma add_zero_translation (o : list R) :
  length o = 3 -> zip_with Rplus o (translation eye34) = o.
Proof.
  intros L. destruct o as [|? [|? [|? [|? ?]]]]; try discriminate.
  rewrite eye34_translation. cbn [zip_with]. entrywise.
Qed.

Lemma identity_rotation (v : list R) :
  length v = 3 -> matvec (rotation eye34) v = v.
Proof.
  intros L. destruct v as [|? [|? [|? [|? ?]]]]; try discriminate.
  rewrite eye34_rotation. unfold matvec, eye, dot, sum.
  cbn [map seq Nat.eqb zip_with fold_right]. entrywise.
Qed.

Section Rays.

Context {ops : PoseOps}.

(** [apply_to_raybundle] ray by ray, for a bundle of any size but one. *)
Lemma apply_to_raybundle_rays (self : CameraOptimizer) (os ds : list (list R))
    (cis : list Z) :
  constructed self -> mode (config self) <> off -> in_range self cis ->
  length cis <> 1 -> length os = length cis -> length ds = length cis ->
  Forall (fun v => length v = 3) ds ->
  exists self' os' ds',
    apply_to_raybundle self (mkRayBundle os (batch ds) cis)
    = (Ok tt, self', mkRayBundle os' (batch ds') cis)
    /\ length os' = length cis
    /\ length ds' = length cis
    /\ forall k i o d,
         nth_error cis k = Some i -> nth_error os k = Some o ->
         nth_error ds k = Some d ->
         nth_error os' k
         = Some (zip_with Rplus o (translation (correction_row self i)))
         /\ nth_error ds' k
            = Some (matvec (rotation (correction_row self i)) d).
Proof.
  intros C M Hin N Lo Ld D.
  destruct (proj2 (apply_to_raybundle_batch ops self os ds cis)
              M C Hin N Lo Ld D) as (corr & self' & F & A).
  destruct (forward_closed_form self cis C Hin (or_introl M)) as [s F'].
  rewrite F in F'.
  assert (Ec : corr = map (correction_row self) cis) by congruence.
  subst corr. clear F'.
  exists self'. eexists. eexists. split; [exact A|].
  split; [|split].
  - rewrite zip_with_length; rewrite ?length_map; congruence.
  - rewrite zip_with_length; rewrite ?length_map; congruence.
  - intros k i o d Hi Ho Hd. split.
    + apply zip_with_nth_error; [exact Ho|].
      rewrite !nth_error_map, Hi. reflexivity.
    + eapply (zip_with_nth_error (fun m v => matvec (rotation m) v));
        [|exact Hd].
      rewrite nth_error_map, Hi. reflexivity.
Qed.

End Rays.

(** X14. Each ray is corrected by its own camera: for a constructed
    instance in a mode other than [off] and a well-shaped bundle of any size
    but one with in-range camera indices, [apply_to_raybundle] succeeds,
    keeps the number of rays and the camera indices, and ray [k] gets the
    origin (old origin) + (translation of the correction [forward] returns
    for its camera) and the direction (rotation of that correction) applied
    to the old direction. *)
Theorem apply_to_raybundle_per_ray (ops : PoseOps) (self : CameraOptimizer)
    (os ds : list (list R)) (cis : list Z) :
  constructed self -> mode (config self) <> off -> in_range self cis ->
  length cis <> 1 -> length os = length cis -> length ds = length cis ->
  Forall (fun v => length v = 3) ds ->
  exists self' os' ds',
    apply_to_raybundle self (mkRayBundle os (batch ds) cis)
    = (Ok tt, self', mkRayBundle os' (batch ds') cis)
    /\ length os' = length cis
    /\ length ds' = length cis
    /\ forall k i o d,
         nth_error cis k = Some i -> nth_error os k = Some o ->
         nth_error ds k = Some d ->
         exists m s,
           forward self (batch [i]) = (Ok [m], s)
           /\ nth_error os' k = Some (zip_with Rplus o (translation m))
           /\ nth_error ds' k = Some (matvec (rotation m) d).
Proof.
  intros C M Hin N Lo Ld D.
  destruct (apply_to_raybundle_rays self os ds cis C M Hin N Lo Ld D)
    as (self' & os' & ds' & A & L1 & L2 & P).
  exists self', os', ds'. repeat split; try assumption.
  intros k i o d Hi Ho Hd.
  assert (Ri : (0 <= i < num_cameras self)%Z).
  { unfold in_range in Hin. rewrite Forall_forall in Hin.
    apply Hin. eapply nth_error_In; eassumption. }
  destruct (forward_closed_form self [i] C) as [s F];
    [constructor; [assumption | constructor] | left; assumption |].
  exists (correction_row self i), s. split; [exact F|].
  exact (P k i o d Hi Ho Hd).
Qed.

Lemma apply_to_raybundle_per_ray_witness :
  exists self' os' ds' m s,
    @apply_to_raybundle spec_pose_ops three_cameras two_rays
    = (Ok tt, self', mkRayBundle os' (batch ds') [0%Z; 1%Z])
    /\ @forward spec_pose_ops three_cameras (batch [0%Z]) = (Ok [m], s)
    /\ nth_error os' 0 = Some (zip_with Rplus [0; 0; 0]%R (translation m)).
Proof.
  destruct (apply_to_raybundle_per_ray spec_pose_ops three_cameras
              [[0; 0; 0]; [1; 1; 1]]%R [[0; 0; 1]; [0; 1; 0]]%R [0%Z; 1%Z])
    as (self' & os' & ds' & A & _ & _ & P).
  - exact three_cameras_constructed.
  - simpl; discriminate.
  - repeat constructor; simpl; lia.
  - simpl; lia.
  - reflexivity.
  - reflexivity.
  - repeat constructor.
  - destruct (P 0 0%Z [0; 0; 0]%R [0; 0; 1]%R eq_refl eq_refl eq_refl)
      as (m & s & F & O & _).
    exists self', os', ds', m, s. repeat split; assumption.
Defined.

(** X15. Rays of a non-trainable camera are never moved: under the
    conditions of X14, a ray whose camera index is in the non-trainable set
    keeps its origin and its direction exactly, whatever the parameters
    hold. *)
Theorem apply_to_raybundle_non_trainable (ops : PoseOps) (self : CameraOptimizer)
    (os ds : list (list R)) (cis : list Z) :
  constructed self -> mode (config self) <> off -> in_range self cis ->
  length cis <> 1 -> length os = length cis -> length ds = length cis ->
  Forall (fun v => length v = 3) os ->
  Forall (fun v => length v = 3) ds ->
  exists self' os' ds',
    apply_to_raybundle self (mkRayBundle os (batch ds) cis)
    = (Ok tt, self', mkRayBundle os' (batch ds') cis)
    /\ forall k i,
         nth_error cis k = Some i -> masked self i = true ->
         nth_error os' k = nth_error os k
         /\ nth_error ds' k = nth_error ds k.
Proof.
  intros C M Hin N Lo Ld Do Dd.
  destruct (apply_to_raybundle_rays self os ds cis C M Hin N Lo Ld Dd)
    as (self' & os' & ds' & A & _ & _ & P).
  exists self', os', ds'. split; [exact A|].
  intros k i Hi Hm.
  assert (Hk : k < length cis) by (apply nth_error_Some; congruence).
  destruct (nth_error os k) as [o|] eqn:Ho;
    [|apply nth_error_None in Ho; lia].
  destruct (nth_error ds k) as [d|] eqn:Hd;
    [|apply nth_error_None in Hd; lia].
  destruct (P k i o d Hi Ho Hd) as [Po Pd].
  unfold correction_row in Po, Pd. rewrite Hm in Po, Pd.
  rewrite Forall_forall in Do, Dd.
  rewrite add_zero_translation in Po
    by (apply Do; eapply nth_error_In; eassumption).
  rewrite identity_rotation in Pd
    by (apply Dd; eapply nth_error_In; eassumption).
  split; assumption.
Qed.

Lemma apply_to_raybundle_non_trainable_witness :
  exists self' os' ds',
    @apply_to_raybundle spec_pose_ops three_cameras two_rays
    = (Ok tt, self', mkRayBundle os' (batch ds') [0%Z; 1%Z])
    /\ nth_error os' 1 = Some [1; 1; 1]%R
    /\ nth_error ds' 1 = Some [0; 1; 0]%R.
Proof.
  destruct (apply_to_raybundle_non_trainable spec_pose_ops three_cameras
              [[0; 0; 0]; [1; 1; 1]]%R [[0; 0; 1]; [0; 1; 0]]%R [0%Z; 1%Z])
    as (self' & os' & ds' & A & P).
  - exact three_cameras_constructed.
  - simpl; discriminate.
  - repeat constructor; simpl; lia.
  - simpl; lia.
  - reflexivity.
  - reflexivity.
  - repeat constructor.
  - repeat constructor.
  - destruct (P 1 1%Z eq_refl eq_refl) as [Po Pd].
    exists self', os', ds'. split; [exact A|]. split; assumption.
Defined.

(** ** When the constructor fails *)

(** X16. The constructor fails in exactly one situation: the penalty
    scale is not negative, the mode is [SO3xR3] or [SE3], and the number of
    cameras is negative; the error is then the [RuntimeError] of
    [torch.zeros].  In mode [off], in the shared mode and under a negative
    penalty scale a negative number of cameras is accepted. *)
Theorem init_raises_iff (cfg : CameraOptimizerConfig) (n : Z) (d : Device)
    (nti : option (Tensor (list Z))) (sfx : option string) :
  ((exists e, __init__ cfg n d nti sfx = Raise e)
   <-> (0 <= penalty_scale cfg)%R
       /\ (mode cfg = SO3xR3 \/ mode cfg = SE3)
       /\ (n < 0)%Z)
  /\ (forall e, __init__ cfg n d nti sfx = Raise e -> e = RuntimeError)
  /\ ((penalty_scale cfg < 0)%R \/ mode cfg = off \/ mode cfg = shared_SO3xR3
      \/ (0 <= n)%Z ->
      exists self, __init__ cfg n d nti sfx = Ok self).
Proof.
  destruct (Rlt_dec (penalty_scale cfg) 0) as [Neg|Pos].
  - rewrite init_negative_penalty by assumption.
    split; [split|split].
    + intros [e E]; discriminate.
    + intros [H _]; lra.
    + intros e E; discriminate.
    + intros _; eexists; reflexivity.
  - assert (P : (0 <= penalty_scale cfg)%R) by lra.
    rewrite init_nonnegative_penalty by assumption.
    unfold zeros.
    destruct (mode cfg) eqn:M;
      [ | destruct (n <? 0)%Z eqn:N | destruct (n <? 0)%Z eqn:N | ];
      simpl; (split; [split|split]);
      try (intros [e E]; discriminate);
      try (intros e E; discriminate);
      try (intros (_ & [H|H] & _); discriminate);
      try (intros _; eexists; reflexivity);
      try (intros e E; inversion E; reflexivity);
      try (intros (_ & _ & H); apply Z.ltb_ge in N; lia);
      try (intros _; repeat split; auto; apply Z.ltb_lt in N; assumption).
    + intros [H|[H|[H|H]]]; try lra; try discriminate.
      apply Z.ltb_lt in N; lia.
    + intros [H|[H|[H|H]]]; try lra; try discriminate.
      apply Z.ltb_lt in N; lia.
Qed.

(** ** Raw thermal images: the byte order *)

Lemma swap_bytes_arith (x : Z) :
  swap_bytes x = (x / 256 + 256 * (x mod 256))%Z.
Proof.
  unfold swap_bytes.
  rewrite Z.shiftr_div_pow2, Z.shiftl_mul_pow2 by lia.
  change 255%Z with (Z.ones 8). rewrite Z.land_ones by lia.
  change (2 ^ 8)%Z with 256%Z. lia.
Qed.

Lemma swap_bytes_pixel (x : Z) :
  (0 <= x < 65536)%Z ->
  (0 <= swap_bytes x < 65536)%Z /\ swap_bytes (swap_bytes x) = x.
Proof.
  intros Hx. rewrite !swap_bytes_arith.
  pose proof (Z.div_mod x 256 ltac:(lia)) as E.
  pose proof (Z.mod_pos_bound x 256 ltac:(lia)) as Hr.
  assert (Hq : (0 <= x / 256 < 256)%Z)
    by (split; [apply Z.div_pos; lia | apply Z.div_lt_upper_bound; lia]).
  set (q := (x / 256)%Z) in *. set (r := (x mod 256)%Z) in *.
  split; [lia|].
  assert (Eq : ((q + 256 * r) / 256 = r)%Z).
  { symmetry. apply (Z.div_unique _ _ _ q); lia. }
  assert (Er : ((q + 256 * r) mod 256 = q)%Z).
  { symmetry. apply (Z.mod_unique _ _ r); lia. }
  rewrite Eq, Er. lia.
Qed.

(** X17. Fixing the byte order is its own inverse on 16-bit images: when
    every pixel lies in [0, 65536), the pixel map of [extract_thermal_image]
    exchanges the two bytes of each pixel, keeps every pixel in that range,
    and applied twice gives the image back. *)
Theorem fix_endian_round_trip (image : list (list Z)) :
  Forall (Forall (fun x => (0 <= x < 65536)%Z)) image ->
  Forall (Forall (fun x => (0 <= x < 65536)%Z)) (vectorize swap_bytes image)
  /\ vectorize swap_bytes (vectorize swap_bytes image) = image
  /\ Forall (Forall (fun x =>
               swap_bytes x = (256 * (x mod 256) + x / 256)%Z)) image.
Proof.
  intros H. unfold vectorize. split; [|split].
  - apply Forall_map. eapply Forall_impl; [|exact H].
    intros row Hr. apply Forall_map. eapply Forall_impl; [|exact Hr].
    intros x Hx. apply swap_bytes_pixel; exact Hx.
  - rewrite map_map. rewrite <- (map_id image) at 2.
    apply map_ext_in. intros row Hr. rewrite map_map.
    rewrite <- (map_id row) at 2. apply map_ext_in. intros x Hx.
    rewrite Forall_forall in H. specialize (H row Hr).
    rewrite Forall_forall in H. apply swap_bytes_pixel, H, Hx.
  - apply Forall_forall; intros row _. apply Forall_forall; intros x _.
    rewrite swap_bytes_arith. lia.
Qed.

Lemma fix_endian_round_trip_witness :
  vectorize swap_bytes [[1; 256]; [4660; 65535]]%Z
  = [[256; 1]; [13330; 65535]]%Z
  /\ vectorize swap_bytes (vectorize swap_bytes [[1; 256]; [4660; 65535]]%Z)
     = [[1; 256]; [4660; 65535]]%Z.
Proof.
  split; [reflexivity|].
  apply (fix_endian_round_trip [[1; 256]; [4660; 65535]]%Z).
  repeat constructor; lia.
Defined.

(** ** [extract_float] *)

Lemma digit_not_sign (c : ascii) : is_digit c = true -> is_sign c = false.
Proof.
  unfold is_digit, is_sign. intros H.
  destruct (Ascii.eqb_spec c "-"%char) as [->|_]; [discriminate H|].
  destruct (Ascii.eqb_spec c "+"%char) as [->|_]; [discriminate H|].
  reflexivity.
Qed.

Lemma digit_not_point (c : ascii) :
  is_digit c = true -> Ascii.eqb c "."%char = false.
Proof.
  unfold is_digit. intros H.
  destruct (Ascii.eqb_spec c "."%char) as [->|_]; [discriminate H|].
  reflexivity.
Qed.

Lemma span_no_digit (s : string) :
  has_digit s = false -> span_digits s = (EmptyString, s).
Proof.
  destruct s as [|c s]; simpl; [reflexivity|].
  intros H. apply orb_false_elim in H as [H _]. rewrite H. reflexivity.
Qed.

Lemma match_after_sign_none (sign s : string) :
  has_digit s = false -> match_after_sign sign s = None.
Proof.
  intros H. unfold match_after_sign. rewrite (span_no_digit s H).
  destruct s as [|c s3]; [reflexivity|].
  simpl in H. apply orb_false_elim in H as [_ H3].
  rewrite (span_no_digit s3 H3). destruct (Ascii.eqb c "."%char); reflexivity.
Qed.

Lemma match_none_without_digit (s : string) :
  has_digit s = false -> match_decimal s = None /\ match_integer s = None.
Proof.
  intros H. split.
  - unfold match_decimal. destruct s as [|c s'].
    + apply match_after_sign_none; reflexivity.
    + destruct (is_sign c).
      * simpl in H. apply orb_false_elim in H as [_ H'].
        apply match_after_sign_none; exact H'.
      * apply match_after_sign_none; exact H.
  - unfold match_integer. rewrite (span_no_digit s H). reflexivity.
Qed.

Lemma first_match_none (s : string) :
  has_digit s = false -> first_match s = None.
Proof.
  induction s as [|c s IH]; intros H.
  - reflexivity.
  - destruct (match_none_without_digit _ H) as [D I].
    cbn [first_match]. rewrite D, I.
    simpl in H. apply orb_false_elim in H as [_ H]. apply IH; exact H.
Qed.

Lemma first_match_some (s : string) :
  has_digit s = true -> exists m, first_match s = Some m.
Proof.
  induction s as [|c s IH]; intros H; [discriminate|].
  cbn [first_match].
  destruct (match_decimal (String c s)) as [m|]; [eauto|].
  destruct (match_integer (String c s)) as [m|] eqn:I; [eauto|].
  apply IH. simpl in H.
  destruct (is_digit c) eqn:Dc; [|exact H].
  unfold match_integer in I. simpl in I. rewrite Dc in I.
  destruct (span_digits s); discriminate.
Qed.

(** X18. [extract_float] raises [IndexError] exactly on the texts that
    hold no digit; every text with a digit in it yields a number. *)
Theorem extract_float_raises_iff (dirtystr : string) :
  (extract_float dirtystr = Raise IndexError <-> has_digit dirtystr = false)
  /\ (has_digit dirtystr = true -> exists v, extract_float dirtystr = Ok v).
Proof.
  unfold extract_float. split; [split|].
  - intros E. destruct (has_digit dirtystr) eqn:H; [|reflexivity].
    destruct (first_match_some _ H) as [m Hm]. rewrite Hm in E. discriminate.
  - intros H. rewrite first_match_none by assumption. reflexivity.
  - intros H. destruct (first_match_some _ H) as [m Hm]. rewrite Hm. eauto.
Qed.

Lemma span_digits_app (ds rest : string) :
  all_digits ds = true ->
  match rest with String c _ => is_digit c = false | EmptyString => True end ->
  span_digits (ds ++ rest) = (ds, rest).
Proof.
  intros D Hr. induction ds as [|c ds IH]; simpl in *.
  - destruct rest as [|c r]; [reflexivity|]. simpl. rewrite Hr. reflexivity.
  - apply andb_prop in D as [Dc D]. rewrite Dc, (IH D). reflexivity.
Qed.

Lemma span_digits_all (ds : string) :
  all_digits ds = true -> span_digits ds = (ds, EmptyString).
Proof.
  intros D. induction ds as [|c ds IH]; simpl in *; [reflexivity|].
  apply andb_prop in D as [Dc D]. rewrite Dc, (IH D). reflexivity.
Qed.

Lemma ends_number_no_digit (rest : string) :
  ends_number rest = true ->
  match rest with String c _ => is_digit c = false | EmptyString => True end.
Proof.
  destruct rest as [|c r]; simpl; [trivial|].
  intros H. apply andb_prop in H as [H _]. apply negb_true_iff in H. exact H.
Qed.

Lemma match_after_sign_integer (sign ds rest : string) :
  all_digits ds = true -> ends_number rest = true ->
  match_after_sign sign (ds ++ rest) = None.
Proof.
  intros D E. unfold match_after_sign.
  rewrite (span_digits_app ds rest D (ends_number_no_digit rest E)).
  destruct rest as [|c r]; [reflexivity|]. simpl in E.
  apply andb_prop in E as [_ E]. apply negb_true_iff in E. rewrite E.
  reflexivity.
Qed.

Lemma match_after_sign_decimal (sign ds fs rest : string) :
  all_digits ds = true -> all_digits fs = true -> fs <> EmptyString ->
  ends_number rest = true ->
  match_after_sign sign (ds ++ String "."%char (fs ++ rest))
  = Some (sign ++ ds ++ String "."%char fs)%string.
Proof.
  intros D F N E. unfold match_after_sign.
  rewrite (span_digits_app ds _ D) by reflexivity.
  cbn [Ascii.eqb Bool.eqb]. 
  rewrite (span_digits_app fs rest F (ends_number_no_digit rest E)).
  destruct fs; [congruence | reflexivity].
Qed.

Lemma match_decimal_integer (ds rest : string) :
  all_digits ds = true -> ds <> EmptyString -> ends_number rest = true ->
  match_decimal (ds ++ rest) = None.
Proof.
  intros D N E. destruct ds as [|c ds']; [congruence|].
  pose proof D as D'. simpl in D'. apply andb_prop in D' as [Dc _].
  change (String c ds' ++ rest)%string with (String c (ds' ++ rest)).
  cbn [match_decimal]. rewrite (digit_not_sign c Dc).
  change (String c (ds' ++ rest)) with (String c ds' ++ rest)%string.
  apply match_after_sign_integer; assumption.
Qed.

Lemma match_integer_app (ds rest : string) :
  all_digits ds = true -> ds <> EmptyString -> ends_number rest = true ->
  match_integer (ds ++ rest) = Some ds.
Proof.
  intros D N E. unfold match_integer.
  rewrite (span_digits_app ds rest D (ends_number_no_digit rest E)).
  destruct ds; [congruence | reflexivity].
Qed.

Lemma first_match_integer (ds rest : string) :
  all_digits ds = true -> ds <> EmptyString -> ends_number rest = true ->
  first_match (ds ++ rest) = Some ds.
Proof.
  intros D N E.
  pose proof (match_decimal_integer ds rest D N E) as M2.
  pose proof (match_integer_app ds rest D N E) as M3.
  destruct (ds ++ rest)%string; cbn [first_match]; rewrite M2, M3; reflexivity.
Qed.

Lemma float_of_digits (ds : string) :
  all_digits ds = true -> ds <> EmptyString ->
  float_of ds = IZR (digits_value 0 ds).
Proof.
  intros D N. unfold float_of.
  assert (S : match ds with
              | String c m' =>
                  if is_sign c then (Ascii.eqb c "-"%char, m') else (false, ds)
              | EmptyString => (false, ds)
              end = (false, ds)).
  { destruct ds as [|c ds']; [reflexivity|]. simpl in D.
    apply andb_prop in D as [Dc _]. rewrite (digit_not_sign c Dc). reflexivity. }
  rewrite S, (span_digits_all ds D). reflexivity.
Qed.

(** X19. [extract_float] keeps a leading minus sign only when a decimal
    point follows the digits: a text that starts with ["-"], digits, a
    point and more digits yields the negative number it denotes, but the
    same text without the fractional part yields the positive number, the
    sign being dropped. *)
Theorem extract_float_sign (ds fs rest : string) :
  all_digits ds = true -> ds <> EmptyString ->
  all_digits fs = true -> fs <> EmptyString ->
  ends_number rest = true ->
  extract_float (String "-"%char (ds ++ rest)) = Ok (IZR (digits_value 0 ds))
  /\ extract_float (String "-"%char (ds ++ String "."%char (fs ++ rest)))
     = Ok (- (IZR (digits_value 0 ds)
              + IZR (digits_value 0 fs) / 10 ^ String.length fs))%R.
Proof.
  intros D Nd F Nf E. split.
  - unfold extract_float.
    assert (M : first_match (String "-"%char (ds ++ rest)) = Some ds).
    { cbn [first_match match_decimal].
      change (is_sign "-"%char) with true. cbv iota.
      rewrite match_after_sign_integer by assumption.
      change (match_integer (String "-"%char (ds ++ rest))) with (@None string).
      cbv iota. apply first_match_integer; assumption. }
    rewrite M, float_of_digits by assumption. reflexivity.
  - unfold extract_float.
    cbn [first_match match_decimal].
    change (is_sign "-"%char) with true. cbv iota.
    rewrite match_after_sign_decimal by assumption.
    f_equal. unfold float_of.
    change ((String "-"%char EmptyString ++ ds ++ String "."%char fs)%string)
      with (String "-"%char (ds ++ String "."%char fs)).
    cbv beta iota. change (is_sign "-"%char) with true. cbv beta iota.
    rewrite (span_digits_app ds (String "."%char fs) D) by reflexivity.
    change (Ascii.eqb "."%char "."%char) with true.
    change (Ascii.eqb "-"%char "-"%char) with true. cbv beta iota.
    reflexivity.
Qed.

Lemma extract_float_sign_witness :
  extract_float "-5 C" = Ok 5%R
  /\ extract_float "-5.25 C" = Ok (- (5 + 25 / 10 ^ 2))%R.
Proof.
  exact (extract_float_sign "5" "25" " C" eq_refl ltac:(discriminate)
           eq_refl ltac:(discriminate) eq_refl).
Defined.

(** ** Mode [off] and the shape of the answers *)

(** X20. Mode [off] without a non-trainable set: [forward] answers any
    batch, whatever integers it holds, with one identity transform per index
    (rotation the 3x3 identity, translation zero) and leaves the instance as
    it was; the two consumers and the snapshot then change nothing. *)
Theorem forward_off_identities (ops : PoseOps) (self : CameraOptimizer)
    (indices : list Z) (raybundle : RayBundle) (camera : Cameras) :
  mode (config self) = off ->
  non_trainable_camera_indices self = None ->
  forward self (batch indices) = (Ok (repeat eye34 (length indices)), self)
  /\ rotation eye34 = eye 3
  /\ translation eye34 = [0; 0; 0]%R
  /\ apply_to_raybundle self raybundle = (Ok tt, self, raybundle)
  /\ apply_to_camera self camera = (Ok tt, self, camera)
  /\ ((0 <= num_cameras self)%Z ->
      get_correction_matrices self
      = (Ok (repeat eye34 (Z.to_nat (num_cameras self))), self)).
Proof.
  intros M E. split; [apply forward_off_plain; assumption|].
  split; [reflexivity|]. split; [reflexivity|]. split; [|split].
  - unfold apply_to_raybundle. rewrite (proj2 (Mode_eqb_off _) M). reflexivity.
  - unfold apply_to_camera. rewrite (proj2 (Mode_eqb_off _) M). reflexivity.
  - intros Hn. unfold get_correction_matrices.
    replace (num_cameras self <? 0)%Z with false
      by (symmetry; apply Z.ltb_ge; lia).
    rewrite forward_off_plain by assumption. rewrite range_length. reflexivity.
Qed.

Lemma forward_off_identities_witness :
  exists self,
    __init__ (mkConfig SO3xR3 (/ 100) (/ 1000) (-1)) 2 "cpu" None None = Ok self
    /\ @forward spec_pose_ops self (batch [5; -9; 0]%Z)
       = (Ok [eye34; eye34; eye34], self).
Proof.
  assert (I : exists self,
             __init__ (mkConfig SO3xR3 (/ 100) (/ 1000) (-1)) 2 "cpu" None None
             = Ok self
             /\ mode (config self) = off
             /\ non_trainable_camera_indices self = None).
  { rewrite init_negative_penalty by (simpl; lra).
    eexists; split; [reflexivity|]. split; reflexivity. }
  destruct I as (self & I & M & E).
  exists self. split; [exact I|].
  exact (proj1 (forward_off_identities spec_pose_ops self [5; -9; 0]%Z
                  one_ray camera_without_metadata M E)).
Defined.

(** X21. The shape of an answer: a constructed instance (not in mode
    [off] with a non-trainable set) answers a batch of [N] in-range indices
    with exactly [N] matrices, each of 3 rows of 4 entries; in particular the
    empty batch gets the empty answer. *)
Theorem forward_shape (ops : PoseOps) (self : CameraOptimizer)
    (indices : list Z) :
  constructed self -> in_range self indices ->
  mode (config self) <> off \/ non_trainable_camera_indices self = None ->
  (exists out self',
      forward self (batch indices) = (Ok out, self')
      /\ length out = length indices
      /\ Forall shape34 out)
  /\ exists self'', forward self (batch []) = (Ok [], self'').
Proof.
  intros C Hin H. split.
  - apply forward_constructed_total; assumption.
  - destruct (forward_closed_form self [] C) as [s F];
      [constructor | assumption |].
    exists s. exact F.
Qed.

Lemma forward_shape_witness :
  exists out self',
    @forward spec_pose_ops two_cameras_shared (batch [1; 1; 0]%Z) = (Ok out, self')
    /\ length out = 3 /\ Forall shape34 out.
Proof.
  destruct (forward_shape spec_pose_ops two_cameras_shared [1; 1; 0]%Z)
    as [(out & self' & F & L & S) _].
  - split; eexists; split; reflexivity.
  - repeat constructor; simpl; lia.
  - left; simpl; discriminate.
  - exists out, self'. repeat split; assumption.
Defined.

(** ** Out-of-range indices in the consumers *)

(** X22. No partial update on a bad index: in the modes [SO3xR3] and
    [SE3], [apply_to_camera] on a camera that names an index outside
    [-num_cameras, num_cameras), and [apply_to_raybundle] on a bundle of two
    or more rays one of which holds such an index, raise [IndexError] and
    hand back the optimizer, the camera and the bundle as they were. *)
Theorem consumers_out_of_range (ops : PoseOps) (self : CameraOptimizer)
    (camera : Cameras) md (raybundle : RayBundle) (i : Z) :
  constructed self ->
  mode (config self) = SO3xR3 \/ mode (config self) = SE3 ->
  (i < - num_cameras self \/ num_cameras self <= i)%Z ->
  (metadata camera = Some md -> dict_get md "cam_idx" = Some i ->
   apply_to_camera self camera = (Raise IndexError, self, camera))
  /\ (In i (camera_indices raybundle) ->
      length (camera_indices raybundle) <> 1 ->
      apply_to_raybundle self raybundle = (Raise IndexError, self, raybundle)).
Proof.
  intros C M Hi.
  assert (N : Mode_eqb (mode (config self)) off = false)
    by (destruct M as [M|M]; rewrite M; reflexivity).
  split.
  - intros Hmd Hc. unfold apply_to_camera. rewrite N, Hmd, Hc.
    rewrite (forward_index_error ops self [i] i C M (or_introl eq_refl) Hi).
    reflexivity.
  - intros Hin L. unfold apply_to_raybundle. rewrite N.
    rewrite squeeze_batch by assumption.
    rewrite (forward_index_error ops self _ i C M Hin Hi). reflexivity.
Qed.

Lemma consumers_out_of_range_witness :
  @apply_to_camera spec_pose_ops three_cameras (camera_numbered 3)
  = (Raise IndexError, three_cameras, camera_numbered 3).
Proof.
  apply (proj1 (consumers_out_of_range spec_pose_ops three_cameras
                  (camera_numbered 3) [("cam_idx", 3%Z)] one_ray 3%Z
                  three_cameras_constructed (or_introl eq_refl)
                  ltac:(simpl; lia))).
  - reflexivity.
  - reflexivity.
Defined.
